(** * vexy-svgo: the Python binding example and the result-passing boundary

    The development follows [examples/python-integration/main.py]: a
    [ctypes] script that loads the native optimizer, declares the two entry
    points and the [VexyResult] structure, optimizes one SVG literal and
    prints the outcome.

    - [Bytes]   byte strings as the script and the C side see them
                (NUL-terminated reads, strict UTF-8 decoding);
    - [Ctypes]  the [ctypes] descriptors used by the script and their ABI;
    - [Native]  the native side of the boundary (heap, result record,
                producing and releasing operations);
    - [Svgo]    the engine behind the producing operation;
    - [Script]  the statements of the script as state transformers that may
                raise, and the script itself. *)

From Stdlib Require Import ZArith NArith Lia.
From Stdlib Require Import Strings.Byte Strings.String Strings.Ascii.
From stdpp Require Import base option list gmap strings.

Local Open Scope N_scope.

(* ===================================================================== *)
(** ** Byte strings *)
(* ===================================================================== *)

Module Bytes.

Definition NUL : byte := x00.

Definition is_nul (b : byte) : bool := Byte.eqb b NUL.

(** What a C reader sees when it is handed the start of a byte sequence and
    scans for the terminator: the bytes before the first NUL. *)
Fixpoint c_str (l : list byte) : list byte :=
  match l with
  | [] => []
  | b :: r => if is_nul b then [] else b :: c_str r
  end.

(** The same read, bounded by the allocation it starts in: [None] when the
    scan leaves the block without meeting a NUL. *)
Fixpoint c_string_at (block : list byte) : option (list byte) :=
  match block with
  | [] => None
  | b :: r => if is_nul b then Some [] else cons b <$> c_string_at r
  end.

Fixpoint has_nul (l : list byte) : bool :=
  match l with
  | [] => false
  | b :: r => is_nul b || has_nul r
  end.

Definition continuation (n : N) : bool := (0x80 <=? n) && (n <=? 0xBF).

Definition between (lo n hi : N) : bool := (lo <=? n) && (n <=? hi).

(** [bytes.decode()] with its defaults: strict UTF-8.  The result is the
    list of code points of the [str]; [None] stands for the
    [UnicodeDecodeError] raised on an ill-formed sequence. *)
Fixpoint utf8_decode (l : list byte) : option (list N) :=
  match l with
  | [] => Some []
  | b0 :: r0 =>
    let n0 := Byte.to_N b0 in
    if n0 <? 0x80 then cons n0 <$> utf8_decode r0
    else if between 0xC2 n0 0xDF then
      match r0 with
      | b1 :: r1 =>
        let n1 := Byte.to_N b1 in
        if continuation n1
        then cons ((n0 - 0xC0) * 64 + (n1 - 0x80)) <$> utf8_decode r1
        else None
      | _ => None
      end
    else if between 0xE0 n0 0xEF then
      match r0 with
      | b1 :: b2 :: r2 =>
        let n1 := Byte.to_N b1 in
        let n2 := Byte.to_N b2 in
        let lo := if n0 =? 0xE0 then 0xA0 else 0x80 in
        let hi := if n0 =? 0xED then 0x9F else 0xBF in
        if between lo n1 hi && continuation n2
        then cons ((n0 - 0xE0) * 4096 + (n1 - 0x80) * 64 + (n2 - 0x80))
               <$> utf8_decode r2
        else None
      | _ => None
      end
    else if between 0xF0 n0 0xF4 then
      match r0 with
      | b1 :: b2 :: b3 :: r3 =>
        let n1 := Byte.to_N b1 in
        let n2 := Byte.to_N b2 in
        let n3 := Byte.to_N b3 in
        let lo := if n0 =? 0xF0 then 0x90 else 0x80 in
        let hi := if n0 =? 0xF4 then 0x8F else 0xBF in
        if between lo n1 hi && continuation n2 && continuation n3
        then cons ((n0 - 0xF0) * 262144 + (n1 - 0x80) * 4096
                   + (n2 - 0x80) * 64 + (n3 - 0x80))
               <$> utf8_decode r3
        else None
      | _ => None
      end
    else None
  end.

(** ASCII text as a byte string and as a [str]. *)
Definition of_string (s : string) : list byte := list_byte_of_string s.

Definition str_of_string (s : string) : list N :=
  Byte.to_N <$> list_byte_of_string s.

Definition quote : list byte := [x22].

(** Erase every occurrence of [needle] (scanning left to right). *)
Fixpoint starts_with (needle l : list byte) : bool :=
  match needle, l with
  | [], _ => true
  | _ :: _, [] => false
  | a :: n', b :: l' => Byte.eqb a b && starts_with n' l'
  end.

Fixpoint erase_fuel (fuel : nat) (needle l : list byte) : list byte :=
  match fuel with
  | O => l
  | S k =>
    match l with
    | [] => []
    | b :: r =>
      if starts_with needle l
      then erase_fuel k needle (drop (length needle) l)
      else b :: erase_fuel k needle r
    end
  end.

Definition erase (needle l : list byte) : list byte :=
  match needle with
  | [] => l
  | _ => erase_fuel (length l) needle l
  end.

(** A document with its [<g>] wrappers taken away. *)
Definition ungroup (l : list byte) : list byte :=
  erase (of_string "</g>") (erase (of_string "<g>") l).

End Bytes.

(* ===================================================================== *)
(** ** The ctypes descriptors of the script *)
(* ===================================================================== *)

Module Ctypes.

(** The three fundamental types the script names. *)
Inductive simple_ctype := c_int | c_char_p | c_size_t.

(** A [ctypes.Structure] subclass: its name and its [_fields_]. *)
Record Structure_class := {
  cls_name : string;
  _fields_ : list (string * simple_ctype)
}.

Inductive ctype :=
| Simple (t : simple_ctype)
| POINTER (c : Structure_class).

(** ABI of a field: what kind of machine word it occupies. *)
Inductive abi_class :=
| AbiInt (bits : N) (signed : bool)
| AbiPointer
| AbiSize.

Definition abi_of (t : simple_ctype) : abi_class :=
  match t with
  | c_int => AbiInt 32 true
  | c_char_p => AbiPointer
  | c_size_t => AbiSize
  end.

(** Width in bits on a platform whose pointers have [pw] bits. *)
Definition width_bits (pw : N) (a : abi_class) : N :=
  match a with
  | AbiInt bits _ => bits
  | AbiPointer => pw
  | AbiSize => pw
  end.

Definition is_signed (a : abi_class) : bool :=
  match a with
  | AbiInt _ s => s
  | AbiPointer => false
  | AbiSize => false
  end.

(** Position and type of a named field, as attribute access on a structure
    instance resolves it. *)
Fixpoint field_index (fs : list (string * simple_ctype)) (name : string)
  : option (nat * simple_ctype) :=
  match fs with
  | [] => None
  | (n, t) :: r =>
    if String.eqb n name then Some (O, t)
    else (fun '(i, t') => (S i, t')) <$> field_index r name
  end.

Definition simple_eqb (a b : simple_ctype) : bool :=
  match a, b with
  | c_int, c_int | c_char_p, c_char_p | c_size_t, c_size_t => true
  | _, _ => false
  end.

Fixpoint fields_eqb (a b : list (string * simple_ctype)) : bool :=
  match a, b with
  | [], [] => true
  | (n, t) :: a', (m, u) :: b' =>
    String.eqb n m && simple_eqb t u && fields_eqb a' b'
  | _, _ => false
  end.

Definition class_eqb (a b : Structure_class) : bool :=
  String.eqb (cls_name a) (cls_name b) && fields_eqb (_fields_ a) (_fields_ b).

(** Lines 11-17: [class VexyResult(ctypes.Structure)]. *)
Definition VexyResult : Structure_class := {|
  cls_name := "VexyResult";
  _fields_ := [ ("error_code", c_int);
                ("data", c_char_p);
                ("data_length", c_size_t);
                ("original_size", c_size_t);
                ("optimized_size", c_size_t);
                ("error_message", c_char_p) ]
|}.

(** The boundary table of the specification (section 6), row by row, with
    the field types in the specification's own vocabulary. *)
Inductive spec_type :=
| Int32Signed
| PointerToByteBuffer
| PlatformUnsignedSize
| PointerToNulTerminatedBytes.

Definition spec_table : list (string * spec_type) :=
  [ ("error_code", Int32Signed);
    ("data", PointerToByteBuffer);
    ("data_length", PlatformUnsignedSize);
    ("original_size", PlatformUnsignedSize);
    ("optimized_size", PlatformUnsignedSize);
    ("error_message", PointerToNulTerminatedBytes) ].

Definition abi_of_spec (t : spec_type) : abi_class :=
  match t with
  | Int32Signed => AbiInt 32 true
  | PointerToByteBuffer => AbiPointer
  | PlatformUnsignedSize => AbiSize
  | PointerToNulTerminatedBytes => AbiPointer
  end.

End Ctypes.

(* ===================================================================== *)
(** ** The native side of the boundary *)
(* ===================================================================== *)

Module Native.
Import Bytes.

(** Addresses: [0] is the null pointer, [Npos a] the block at [a]. *)
Definition ptr := N.
Definition NULL : ptr := 0.

Inductive scalar :=
| I32 (z : Z)
| Ptr (p : ptr)
| Size (n : N).

(** Modelled from the spec: the heap objects of section 3, which live in the
    absent native library.  A block is a result record (one slot per field,
    in the order of the boundary table; [None] is a slot nobody has written
    yet) or a raw byte buffer. *)
Inductive block :=
| Rec (slots : list (option scalar))
| Buf (bytes : list byte).

(** Modelled from the spec: the native heap (the allocator itself is not in
    the sources): the live blocks and the next address to hand out; freed
    addresses are not handed out again. *)
Record heap := {
  cells : gmap positive block;
  brk : positive
}.

Definition empty_heap : heap := {| cells := ∅; brk := 1%positive |}.

Definition alloc (b : block) (h : heap) : positive * heap :=
  (brk h, {| cells := <[brk h := b]> (cells h); brk := Pos.succ (brk h) |}).

Definition free (a : positive) (h : heap) : heap :=
  {| cells := delete a (cells h); brk := brk h |}.

Definition write_slot (i : nat) (v : scalar) (b : block) : block :=
  match b with
  | Rec s => Rec (<[i := Some v]> s)
  | Buf _ => b
  end.

Definition store (a : positive) (i : nat) (v : scalar) (h : heap) : heap :=
  {| cells := alter (write_slot i v) a (cells h); brk := brk h |}.

Definition record_at (h : heap) (p : ptr) : option (list (option scalar)) :=
  match p with
  | 0 => None
  | Npos a => match cells h !! a with Some (Rec s) => Some s | _ => None end
  end.

Definition buffer_at (h : heap) (p : ptr) : option (list byte) :=
  match p with
  | 0 => None
  | Npos a => match cells h !! a with Some (Buf b) => Some b | _ => None end
  end.

(** Reading slot [i] of the record at [p]: [None] when there is no record
    there or the slot was never written. *)
Definition load (h : heap) (p : ptr) (i : nat) : option scalar :=
  s ← record_at h p; mjoin (s !! i).

(** Slot numbers, in the order of the boundary table. *)
Definition F_error_code : nat := 0.
Definition F_data : nat := 1.
Definition F_data_length : nat := 2.
Definition F_original_size : nat := 3.
Definition F_optimized_size : nat := 4.
Definition F_error_message : nat := 5.
Definition field_count : nat := 6.

(** Modelled from the spec: the failure taxonomy of section 7; the native
    library that defines it is not part of the sources at hand. *)
Inductive error_kind :=
| InvalidInput
| UnsupportedFormat
| TransformFailure
| SerializationFailure
| AllocationFailure.

(** Modelled from the spec: the error codes of the native library (absent
    from the sources).  The specification fixes that each kind has its own
    nonzero code; the numbering follows the order of the taxonomy. *)
Definition code_of (k : error_kind) : Z :=
  match k with
  | InvalidInput => 1
  | UnsupportedFormat => 2
  | TransformFailure => 3
  | SerializationFailure => 4
  | AllocationFailure => 5
  end.

(** Modelled from the spec: the messages of the native library (absent from
    the sources); one descriptive text per kind, in the words of sections
    4.1 and 7. *)
Definition describe (k : error_kind) : list byte :=
  of_string match k with
            | InvalidInput => "malformed input document"
            | UnsupportedFormat => "unsupported input encoding"
            | TransformFailure => "internal transform failure"
            | SerializationFailure => "output-serialization failure"
            | AllocationFailure => "allocation failure"
            end.

(** Modelled from the spec: the optimization engine, which the
    specification keeps opaque (the native library is absent from the
    sources).  It either yields an output payload or fails with a kind. *)
Inductive engine_result :=
| Optimized (out : list byte)
| Failed (k : error_kind).

(** Modelled from the spec: what the boundary needs from the absent native
    library: its configuration type, the transform itself, the default
    configuration used by [optimize_default], the bytes it leaves in the
    [data] allocation after the payload (none, or a terminating NUL), and
    the value the failure path leaves in [optimized_size] (which section
    4.1 calls undefined). *)
Record Engine := {
  Configuration : Type;
  transform : Configuration -> list byte -> engine_result;
  default_configuration : Configuration;
  trailer : list byte;
  undefined_size : N
}.

(** A byte count as a [size_t]: a buffer that exists in memory is shorter
    than [2 ^ width], so the count is kept as it is. *)
Definition size_of (l : list byte) : N := N.of_nat (length l).

Section Producer.
Variable E : Engine.

(** Modelled from the spec: [optimize(input, options)] of section 4.1,
    whose implementation is in the absent native library.  One record is
    allocated, then up to one nested buffer, and every slot is written on
    both paths. *)
Definition optimize (input : list byte) (options : Configuration E)
           (h : heap) : ptr * heap :=
  let '(r, h) := alloc (Rec (replicate field_count None)) h in
  match transform E options input with
  | Optimized out =>
    let '(d, h) := alloc (Buf (out ++ trailer E)) h in
    let h := store r F_error_code (I32 0) h in
    let h := store r F_data (Ptr (Npos d)) h in
    let h := store r F_data_length (Size (size_of out)) h in
    let h := store r F_original_size (Size (size_of input)) h in
    let h := store r F_optimized_size (Size (size_of out)) h in
    let h := store r F_error_message (Ptr NULL) h in
    (Npos r, h)
  | Failed k =>
    let '(m, h) := alloc (Buf (describe k ++ [NUL])) h in
    let h := store r F_error_code (I32 (code_of k)) h in
    let h := store r F_data (Ptr NULL) h in
    let h := store r F_data_length (Size 0) h in
    let h := store r F_original_size (Size (size_of input)) h in
    let h := store r F_optimized_size (Size (undefined_size E)) h in
    let h := store r F_error_message (Ptr (Npos m)) h in
    (Npos r, h)
  end.

(** Modelled from the spec: the entry point [optimize_default] of section
    6 (absent native library).  Its argument is a NUL-terminated byte
    pointer: [at_ptr] is the memory found there, read up to the
    terminator. *)
Definition optimize_default (at_ptr : list byte) (h : heap) : ptr * heap :=
  optimize (c_str at_ptr) (default_configuration E) h.

End Producer.

Definition free_nested (h0 : heap) (p : ptr) (i : nat) (h : heap) : heap :=
  match load h0 p i with
  | Some (Ptr (Npos b)) => free b h
  | _ => h
  end.

(** Modelled from the spec: [release] / [free_result] of sections 4.1 and 6
    (absent native library): a no-op on null, otherwise frees both nested
    buffers when present and then the record. *)
Definition release (p : ptr) (h : heap) : heap :=
  match p with
  | 0 => h
  | Npos r =>
    free r (free_nested h p F_error_message (free_nested h p F_data h))
  end.

(** Observations on what a producing call returns (the pointer and the heap
    it leaves), as the invariants of section 3 phrase them. *)
Definition all_written (s : list (option scalar)) : bool :=
  (length s =? field_count)%nat && forallb (fun c => bool_decide (is_Some c)) s.

Definition non_null (r : ptr * heap) : bool := negb (r.1 =? NULL).

Definition fully_populated (r : ptr * heap) : bool :=
  match record_at r.2 r.1 with
  | Some s => all_written s
  | None => false
  end.

Definition error_code (r : ptr * heap) : option Z :=
  match load r.2 r.1 F_error_code with Some (I32 z) => Some z | _ => None end.

Definition pointer_field (r : ptr * heap) (i : nat) : option ptr :=
  match load r.2 r.1 i with Some (Ptr q) => Some q | _ => None end.

Definition size_field (r : ptr * heap) (i : nat) : option N :=
  match load r.2 r.1 i with Some (Size n) => Some n | _ => None end.

(** The payload: the first [data_length] bytes found at [data]. *)
Definition data_payload (r : ptr * heap) : option (list byte) :=
  q ← pointer_field r F_data;
  b ← buffer_at r.2 q;
  n ← size_field r F_data_length;
  if (N.to_nat n <=? length b)%nat then Some (take (N.to_nat n) b) else None.


(** The allocation found at the [error_message] pointer, if any, and the C
    string read from it. *)
Definition message_buffer (r : ptr * heap) : option (list byte) :=
  q ← pointer_field r F_error_message; buffer_at r.2 q.

Definition message_text (r : ptr * heap) : option (list byte) :=
  b ← message_buffer r; c_string_at b.


End Native.

(* ===================================================================== *)
(** ** The engine *)
(* ===================================================================== *)

Module Svgo.
Import Bytes Native.


Definition lt : byte := "<"%byte.
Definition gt : byte := ">"%byte.
Definition slash : byte := "/"%byte.

(** Modelled from the spec: the optimization engine behind [optimize], which
    is in the absent native library.  The specification keeps its
    algorithms open and fixes its behaviour at the boundary (sections 4.1
    and 8): a malformed document is refused (the empty byte sequence, an
    unterminated tag, an element left unclosed as in [<svg><rect></svg>]),
    a redundant group element is removed, and what the engine returns it
    accepts again without growing it.  The model is the least engine with
    that behaviour: a document is one [svg] element, read as characters and
    tags. *)
Inductive token :=
| Chr (b : byte)
| Tag (raw : list byte).

(** Modelled from the spec: reading a document (absent native library).
    [cur] is the tag being read, if any; a document that ends inside a tag,
    or opens a tag inside a tag, is refused. *)
Fixpoint tokens_from (cur : option (list byte)) (l : list byte)
  : option (list token) :=
  match l with
  | [] => match cur with None => Some [] | Some _ => None end
  | b :: r =>
    match cur with
    | None =>
      if Byte.eqb b lt then tokens_from (Some []) r
      else cons (Chr b) <$> tokens_from None r
    | Some raw =>
      if Byte.eqb b gt then cons (Tag raw) <$> tokens_from None r
      else if Byte.eqb b lt then None
      else tokens_from (Some (raw ++ [b])) r
    end
  end.

Definition tokens (l : list byte) : option (list token) := tokens_from None l.

(** Modelled from the spec: writing a document back (absent native
    library). *)
Definition render_token (t : token) : list byte :=
  match t with
  | Chr b => [b]
  | Tag raw => lt :: raw ++ [gt]
  end.

Fixpoint render (ts : list token) : list byte :=
  match ts with
  | [] => []
  | t :: r => render_token t ++ render r
  end.



Fixpoint bytes_eqb (a b : list byte) : bool :=
  match a, b with
  | [], [] => true
  | x :: a', y :: b' => Byte.eqb x y && bytes_eqb a' b'
  | _, _ => false
  end.

(** The shapes of a tag: its name, whether it closes an element, whether it
    is an element of its own, and whether it opens a group without
    attributes, which is what makes a group redundant. *)
Definition is_space (b : byte) : bool :=
  Byte.eqb b " "%byte || Byte.eqb b x09 || Byte.eqb b x0a || Byte.eqb b x0d.

Fixpoint tag_name (raw : list byte) : list byte :=
  match raw with
  | [] => []
  | b :: r => if is_space b || Byte.eqb b slash then [] else b :: tag_name r
  end.

Definition closes (raw : list byte) : option (list byte) :=
  match raw with
  | b :: r => if Byte.eqb b slash then Some (tag_name r) else None
  | [] => None
  end.

Definition self_closing (raw : list byte) : bool :=
  match last raw with
  | Some b => Byte.eqb b slash
  | None => false
  end.

Definition redundant_group (raw : list byte) : bool :=
  bytes_eqb raw (of_string "g").

Definition no_name (raw : list byte) : bool :=
  match tag_name raw with [] => true | _ => false end.

(** Modelled from the spec: the pass that checks that elements nest and
    removes the redundant groups (absent native library).  The stack holds
    the open elements, each with a mark telling whether its tags are being
    dropped. *)
Fixpoint unwrap (stack : list (list byte * bool)) (ts : list token)
  : option (list token) :=
  match ts with
  | [] => match stack with [] => Some [] | _ :: _ => None end
  | t :: r =>
    match stack with
    | [] => None
    | (top, dropped) :: below =>
      match t with
      | Chr _ => cons t <$> unwrap stack r
      | Tag raw =>
        match closes raw with
        | Some name =>
          if bytes_eqb name top
          then if dropped then unwrap below r else cons t <$> unwrap below r
          else None
        | None =>
          if no_name raw then None
          else if self_closing raw then cons t <$> unwrap stack r
          else if redundant_group raw
               then unwrap ((tag_name raw, true) :: stack) r
               else cons t <$> unwrap ((tag_name raw, false) :: stack) r
        end
      end
    end
  end.

Definition root : list byte := of_string "svg".

(** Modelled from the spec: the transform of the engine (absent native
    library): a document is accepted when it is a single well-nested [svg]
    element, and comes back without its redundant groups. *)
Definition transform (_ : unit) (input : list byte) : engine_result :=
  match tokens input with
  | Some (Tag raw :: rest) =>
    if bytes_eqb (tag_name raw) root
    then if self_closing raw
         then match rest with
              | [] => Optimized (render [Tag raw])
              | _ :: _ => Failed InvalidInput
              end
         else match unwrap [(root, false)] rest with
              | Some out => Optimized (render (Tag raw :: out))
              | None => Failed InvalidInput
              end
    else Failed InvalidInput
  | _ => Failed InvalidInput
  end.

(** Modelled from the spec: the engine as the boundary sees it.  The payload
    is followed by a NUL, as the reader of main.py expects of [data]. *)
Definition engine : Engine := {|
  Native.Configuration := unit;
  Native.transform := transform;
  Native.default_configuration := tt;
  Native.trailer := [NUL];
  Native.undefined_size := 0
|}.





End Svgo.

(* ===================================================================== *)
(** ** The script *)
(* ===================================================================== *)

Module Script.
Import Bytes Ctypes.

(** What can stop the script.  [NativeFault] is not a Python exception: it
    stands for a native read outside what was allocated and written
    (undefined behaviour of the process). *)
Inductive exn :=
| OSError
| AttributeError (attr : string)
| NameError (name : string)
| TypeError
| ValueError
| UnicodeDecodeError
| UnicodeEncodeError
| NativeFault.

Inductive value :=
| VModule
| VLib
| VClass (c : Structure_class)
| VBytes (b : list byte)
| VStr (s : list N)
| VInt (z : Z)
| VPointer (c : Structure_class) (p : Native.ptr)
| VNone.

(** A foreign function object: [argtypes] is unset until assigned,
    [restype] starts as [c_int]; [None] as a restype means [void]. *)
Record FuncPtr := {
  argtypes : option (list ctype);
  restype : option ctype
}.

Definition fresh_funcptr : FuncPtr :=
  {| argtypes := None; restype := Some (Simple c_int) |}.

Inductive native_arg :=
| ArgBytes (b : list byte)
| ArgPtr (p : Native.ptr).

(** The environment the script runs in: whether the shared library at the
    path of line 4 can be loaded, the symbols it exports, the engine behind
    them, and which characters beyond ASCII the encoding of [sys.stdout]
    can represent. *)
Record world := {
  library_present : bool;
  exports : gset string;
  engine : Native.Engine;
  stdout_can_encode : N -> bool
}.

(** Two encodings of [sys.stdout]: UTF-8, which represents every scalar
    value, and plain ASCII. *)
Definition utf8_stdout (n : N) : bool :=
  (n <? 0xD800) || ((0xE000 <=? n) && (n <? 0x110000)).

Definition ascii_stdout (n : N) : bool := false.

Record state := {
  globals : gmap string value;
  lib_attrs : gmap string FuncPtr;
  heap : Native.heap;
  ffi_calls : list (string * native_arg);
  stdout : list N;
  encoding : N -> bool
}.

Definition initial_state (w : world) : state := {|
  globals := ∅;
  lib_attrs := ∅;
  heap := Native.empty_heap;
  ffi_calls := [];
  stdout := [];
  encoding := stdout_can_encode w
|}.

(** Can [sys.stdout] take the character [n]?  Seven-bit characters always
    pass; the others depend on the encoding. *)
Definition encodable (s : state) (n : N) : bool :=
  (n <? 0x80) || encoding s n.

Definition with_globals (f : gmap string value -> gmap string value)
           (s : state) : state :=
  {| globals := f (globals s); lib_attrs := lib_attrs s; heap := heap s;
     ffi_calls := ffi_calls s; stdout := stdout s;
     encoding := encoding s |}.

Definition with_lib_attrs (f : gmap string FuncPtr -> gmap string FuncPtr)
           (s : state) : state :=
  {| globals := globals s; lib_attrs := f (lib_attrs s); heap := heap s;
     ffi_calls := ffi_calls s; stdout := stdout s;
     encoding := encoding s |}.

Definition with_native (name : string) (a : native_arg) (h : Native.heap)
           (s : state) : state :=
  {| globals := globals s; lib_attrs := lib_attrs s; heap := h;
     ffi_calls := ffi_calls s ++ [(name, a)]; stdout := stdout s;
     encoding := encoding s |}.

Definition with_stdout (f : list N -> list N) (s : state) : state :=
  {| globals := globals s; lib_attrs := lib_attrs s; heap := heap s;
     ffi_calls := ffi_calls s; stdout := f (stdout s);
     encoding := encoding s |}.

(** State and exceptions. *)
Inductive result (A : Type) :=
| Ok (a : A)
| Raise (e : exn).
Arguments Ok {A} a.
Arguments Raise {A} e.

Definition M (A : Type) : Type := state -> result A * state.

Definition ret {A} (a : A) : M A := fun s => (Ok a, s).

Definition raise {A} (e : exn) : M A := fun s => (Raise e, s).

Definition bind {A B} (m : M A) (k : A -> M B) : M B :=
  fun s => match m s with
           | (Ok a, s') => k a s'
           | (Raise e, s') => (Raise e, s')
           end.

Definition gets {A} (f : state -> A) : M A := fun s => (Ok (f s), s).

Definition modify (f : state -> state) : M unit := fun s => (Ok tt, f s).

Declare Scope py_scope.
Delimit Scope py_scope with py.
Notation "x <- c ;; k" := (bind c (fun x => k))
  (at level 100, c at next level, right associativity) : py_scope.
Notation "c ;;; k" := (bind c (fun _ => k))
  (at level 100, right associativity) : py_scope.
Local Open Scope py_scope.

(** Name lookup in the module namespace. *)
Definition lookup_name (x : string) : M value :=
  fun s => match globals s !! x with
           | Some v => (Ok v, s)
           | None => (Raise (NameError x), s)
           end.

Definition bind_name (x : string) (v : value) : M unit :=
  modify (with_globals <[x := v]>).

(** [ctypes.<attr>]: the name [ctypes] must be bound to the module. *)
Definition ctypes_module : M unit :=
  v <- lookup_name "ctypes" ;;
  match v with
  | VModule => ret tt
  | _ => raise (AttributeError "ctypes")
  end.

(** A name used as a structure class, as in [ctypes.POINTER(VexyResult)]. *)
Definition the_class (x : string) : M Structure_class :=
  v <- lookup_name x ;;
  match v with
  | VClass c => ret c
  | _ => raise TypeError
  end.

(** [lib.<sym>]: the function object cached on the library object, created
    on first access by resolving the symbol. *)
Definition lib_getattr (w : world) (sym : string) : M FuncPtr :=
  v <- lookup_name "lib" ;;
  match v with
  | VLib =>
    fun s => match lib_attrs s !! sym with
             | Some f => (Ok f, s)
             | None =>
               if bool_decide (sym ∈ exports w)
               then (Ok fresh_funcptr, with_lib_attrs <[sym := fresh_funcptr]> s)
               else (Raise (AttributeError sym), s)
             end
  | _ => raise (AttributeError sym)
  end.

Definition set_argtypes (sym : string) (ts : list ctype) : M unit :=
  modify (with_lib_attrs
            (alter (fun f => {| argtypes := Some ts; restype := restype f |}) sym)).

Definition set_restype (sym : string) (t : option ctype) : M unit :=
  modify (with_lib_attrs
            (alter (fun f => {| argtypes := argtypes f; restype := t |}) sym)).

Definition optimize_sym : string := "vexy_svgo_optimize_default".
Definition free_sym : string := "vexy_svgo_free_result".

(** Line 1: [import ctypes]. *)
Definition line1 : M unit := bind_name "ctypes" VModule.

(** Line 4: [lib = ctypes.CDLL("../../target/release/libvexy_svgo_ffi.dylib")]. *)
Definition line4 (w : world) : M unit :=
  ctypes_module ;;;
  if library_present w then bind_name "lib" VLib else raise OSError.

(** Line 7: [lib.vexy_svgo_optimize_default.argtypes = [ctypes.c_char_p]].
    The right-hand side is evaluated before the target. *)
Definition line7 (w : world) : M unit :=
  ctypes_module ;;;
  _ <- lib_getattr w optimize_sym ;;
  set_argtypes optimize_sym [Simple c_char_p].

(** Line 8: [lib.vexy_svgo_optimize_default.restype = ctypes.POINTER(VexyResult)]. *)
Definition line8 (w : world) : M unit :=
  ctypes_module ;;;
  c <- the_class "VexyResult" ;;
  _ <- lib_getattr w optimize_sym ;;
  set_restype optimize_sym (Some (POINTER c)).

(** Line 9: [lib.vexy_svgo_free_result.argtypes = [ctypes.POINTER(VexyResult)]]. *)
Definition line9 (w : world) : M unit :=
  ctypes_module ;;;
  c <- the_class "VexyResult" ;;
  _ <- lib_getattr w free_sym ;;
  set_argtypes free_sym [POINTER c].

(** Lines 11-17: the class statement. *)
Definition line11 : M unit :=
  ctypes_module ;;;
  bind_name "VexyResult" (VClass VexyResult).

(** Line 19: the SVG literal
    [b'<svg><g><rect width="100" height="100"/></g></svg>']. *)
Definition svg : list byte :=
  of_string "<svg><g><rect width=" ++ quote ++ of_string "100" ++ quote
  ++ of_string " height=" ++ quote ++ of_string "100" ++ quote
  ++ of_string "/></g></svg>".

Definition line19 : M unit := bind_name "svg" (VBytes svg).

(** A 32-bit signed read. *)
Definition wrap32 (z : Z) : Z := ((z + 2 ^ 31) mod 2 ^ 32 - 2 ^ 31)%Z.

(** Conversion of a [bytes] argument for a [char *] parameter: the callee
    gets the address of the object's buffer, which ends with a NUL. *)
Definition as_char_p (f : FuncPtr) (a : value) : M (list byte) :=
  match argtypes f, a with
  | None, VBytes b => ret (b ++ [NUL])
  | Some [Simple c_char_p], VBytes b => ret (b ++ [NUL])
  | _, _ => raise TypeError
  end.

Definition as_pointer (f : FuncPtr) (a : value) : M Native.ptr :=
  match argtypes f, a with
  | None, VPointer _ p => ret p
  | Some [POINTER c], VPointer c' p =>
    if class_eqb c c' then ret p else raise TypeError
  | _, _ => raise TypeError
  end.

(** Conversion of a returned address according to [restype]. *)
Definition as_result (f : FuncPtr) (p : Native.ptr) : M value :=
  match restype f with
  | None => ret VNone
  | Some (POINTER c) => ret (VPointer c p)
  | Some (Simple c_int) => ret (VInt (wrap32 (Z.of_N p)))
  | Some (Simple c_size_t) => ret (VInt (Z.of_N p))
  | Some (Simple c_char_p) => raise NativeFault
  end.

Definition call_optimize (w : world) (f : FuncPtr) (a : value) : M value :=
  mem <- as_char_p f a ;;
  p <- (fun s =>
          let '(p, h) := Native.optimize_default (engine w) mem (heap s) in
          (Ok p, with_native optimize_sym (ArgBytes mem) h s)) ;;
  as_result f p.

Definition call_free (w : world) (f : FuncPtr) (a : value) : M unit :=
  p <- as_pointer f a ;;
  modify (fun s => with_native free_sym (ArgPtr p) (Native.release p (heap s)) s).

(** Line 21: [result = lib.vexy_svgo_optimize_default(svg)]. *)
Definition line21 (w : world) : M unit :=
  f <- lib_getattr w optimize_sym ;;
  a <- lookup_name "svg" ;;
  r <- call_optimize w f a ;;
  bind_name "result" r.

(** Reading field [name] of a structure of class [c] at address [p]. *)
Definition getfield (c : Structure_class) (name : string) (p : Native.ptr)
  : M value :=
  match field_index (_fields_ c) name with
  | None => raise (AttributeError name)
  | Some (i, t) =>
    h <- gets heap ;;
    match Native.load h p i with
    | None => raise NativeFault
    | Some sc =>
      match t, sc with
      | c_int, Native.I32 z => ret (VInt (wrap32 z))
      | c_size_t, Native.Size n => ret (VInt (Z.of_N n))
      | c_char_p, Native.Ptr 0 => ret VNone
      | c_char_p, Native.Ptr q =>
        match Native.buffer_at h q with
        | Some b =>
          match c_string_at b with
          | Some cs => ret (VBytes cs)
          | None => raise NativeFault
          end
        | None => raise NativeFault
        end
      | _, _ => raise NativeFault
      end
    end
  end.

(** Was the slot behind field [name] of the structure at [p] ever written? *)
Definition field_written (c : Structure_class) (h : Native.heap)
           (p : Native.ptr) (name : string) : bool :=
  match field_index (_fields_ c) name with
  | Some (i, _) => bool_decide (is_Some (Native.load h p i))
  | None => false
  end.

(** [result.contents.<name>]. *)
Definition result_contents (name : string) : M value :=
  v <- lookup_name "result" ;;
  match v with
  | VPointer c p =>
    if (p =? 0)%N then raise ValueError else getfield c name p
  | _ => raise (AttributeError "contents")
  end.

(** [<v>.decode()]. *)
Definition decode (v : value) : M (list N) :=
  match v with
  | VBytes b =>
    match utf8_decode b with
    | Some s => ret s
    | None => raise UnicodeDecodeError
    end
  | _ => raise (AttributeError "decode")
  end.

(** [print(<s>)]: the text and a newline go to [sys.stdout], unless its
    encoding cannot represent the text, in which case nothing is written and
    [UnicodeEncodeError] is raised. *)
Definition print (s : list N) : M unit :=
  fun st =>
    if forallb (encodable st) s
    then (Ok tt, with_stdout (fun out => out ++ s ++ [10]) st)
    else (Raise UnicodeEncodeError, st).

Definition equals_zero (v : value) : bool :=
  match v with
  | VInt z => (z =? 0)%Z
  | _ => false
  end.

(** Lines 23-26: the branch on [error_code]. *)
Definition line23 : M unit :=
  ec <- result_contents "error_code" ;;
  if equals_zero ec
  then d <- result_contents "data" ;;
       t <- decode d ;;
       print t
  else m <- result_contents "error_message" ;;
       t <- decode m ;;
       print (str_of_string "Error: " ++ t).

(** Line 28: [lib.vexy_svgo_free_result(result)]. *)
Definition line28 (w : world) : M unit :=
  f <- lib_getattr w free_sym ;;
  a <- lookup_name "result" ;;
  call_free w f a.

(** The statements of the file, each with the line it starts on. *)
Definition script (w : world) : list (nat * M unit) :=
  [ (1, line1); (4, line4 w); (7, line7 w); (8, line8 w); (9, line9 w);
    (11, line11); (19, line19); (21, line21 w); (23, line23);
    (28, line28 w) ]%nat.

Inductive outcome :=
| Finished (s : state)
| Aborted (line : nat) (e : exn) (s : state).

Fixpoint run (prog : list (nat * M unit)) (s : state) : outcome :=
  match prog with
  | [] => Finished s
  | (n, c) :: rest =>
    match c s with
    | (Ok _, s') => run rest s'
    | (Raise e, s') => Aborted n e s'
    end
  end.

Definition run_script (w : world) : outcome :=
  run (script w) (initial_state w).

Definition aborted_at (o : outcome) : option (nat * exn) :=
  match o with
  | Finished _ => None
  | Aborted n e _ => Some (n, e)
  end.

Definition final_state (o : outcome) : state :=
  match o with
  | Finished s => s
  | Aborted _ _ s => s
  end.

(** The library symbols a state bears witness of: those resolved into
    function objects on [lib] and those that were called. *)
Definition symbols_of (s : state) : gset string :=
  dom (lib_attrs s) ∪ list_to_set (ffi_calls s).*1.

(** A computation reaches the library through the two names of the script
    only: whatever the state it starts in, it adds no other symbol. *)
Definition two_symbols_only {A} (c : M A) : Prop :=
  forall s, symbols_of (c s).2 ⊆ symbols_of s ∪ {[ optimize_sym; free_sym ]}.

End Script.

(* ===================================================================== *)
(** ** Concrete instances *)
(* ===================================================================== *)

Module Sample.
Import Bytes Ctypes Script.

(** Is the text left inside a tag that never closes? *)
Fixpoint inside_tag (opened : bool) (l : list byte) : bool :=
  match l with
  | [] => opened
  | b :: r =>
    if Byte.eqb b "<"%byte then inside_tag true r
    else if Byte.eqb b ">"%byte then inside_tag false r
    else inside_tag opened r
  end.

(** A small stand-in for the engine, used to instantiate statements at
    concrete inputs: it rejects the empty document and a document ending
    inside a tag, and otherwise unwraps groups. *)
Definition sample_transform (_ : unit) (i : list byte) : Native.engine_result :=
  match i with
  | [] => Native.Failed Native.InvalidInput
  | _ => if inside_tag false i
         then Native.Failed Native.InvalidInput
         else Native.Optimized (ungroup i)
  end.

Definition sample_engine : Native.Engine := {|
  Native.Configuration := unit;
  Native.transform := sample_transform;
  Native.default_configuration := tt;
  Native.trailer := [NUL];
  Native.undefined_size := 0
|}.

(** An engine whose payload has a NUL in the middle. *)
Definition nul_payload : list byte := ["a"%byte; NUL; "b"%byte].

Definition nul_engine : Native.Engine := {|
  Native.Configuration := unit;
  Native.transform := fun _ _ => Native.Optimized nul_payload;
  Native.default_configuration := tt;
  Native.trailer := [NUL];
  Native.undefined_size := 0
|}.

(** A world in which the library loads and exports the two symbols the
    script names. *)
Definition sample_world : world := {|
  library_present := true;
  exports := {[ optimize_sym; free_sym ]};
  engine := sample_engine;
  stdout_can_encode := utf8_stdout
|}.

(** A world without the shared library at the path of line 4. *)
Definition no_library : world := {|
  library_present := false;
  exports := ∅;
  engine := sample_engine;
  stdout_can_encode := utf8_stdout
|}.


(** A world like [sample_world] whose engine returns [nul_payload]. *)
Definition nul_world : world := {|
  library_present := true;
  exports := {[ optimize_sym; free_sym ]};
  engine := nul_engine;
  stdout_can_encode := utf8_stdout
|}.

(** The statements of the script with the class statement moved in front of
    its first use, which is how lines 21-28 can be reached at all. *)
Definition class_first (w : world) : list (nat * M unit) :=
  [ (1, line1); (4, line4 w); (11, line11); (7, line7 w); (8, line8 w);
    (9, line9 w); (19, line19); (21, line21 w); (23, line23);
    (28, line28 w) ]%nat.

(** The state in which the branch of lines 23-26 then starts: everything up
    to and including the call of line 21 has run. *)
Definition before_branch (w : world) : state :=
  final_state (run (take 8 (class_first w)) (initial_state w)).

End Sample.

(* ===================================================================== *)
(** ** Observations and states for the edge cases of the script *)
(* ===================================================================== *)

Module Edge.
Import Bytes Ctypes Script.


(** A Unicode scalar value: a code point that is not a surrogate. *)
Definition scalar_value (n : N) : bool :=
  (n <? 0xD800) || ((0xE000 <=? n) && (n <? 0x110000)).

(** A computation leaves the observation [f] of the state as it found it,
    whether it returns or raises. *)
Definition keeps {A X} (f : state -> X) (c : M A) : Prop :=
  forall s, f (c s).2 = f s.


(** A computation is read-only: the state it leaves is the one it found. *)
Definition read_only {A} (c : M A) : Prop := forall s, (c s).2 = s.

(** A computation never raises [e]. *)
Definition never_raises {A} (e : exn) (c : M A) : Prop :=
  forall s, (c s).1 <> Raise e.

(** The field on which the branch of lines 23-26 calls [decode], given the
    error code it has read. *)
Definition gated_field (code : Z) : nat :=
  if (wrap32 code =? 0)%Z then Native.F_data else Native.F_error_message.

(** What the native call of line 21 does for the bytes [b] bound to [svg]:
    the entry point runs on the bytes before the first NUL of [b]. *)
Definition native_call (w : world) (b : list byte) (h : Native.heap)
  : Native.ptr * Native.heap :=
  Native.optimize (engine w) (c_str b)
    (Native.default_configuration (engine w)) h.

(** An engine that rejects every document. *)
Definition reject_engine : Native.Engine := {|
  Native.Configuration := unit;
  Native.transform := fun _ _ => Native.Failed Native.InvalidInput;
  Native.default_configuration := tt;
  Native.trailer := [NUL];
  Native.undefined_size := 0
|}.

Definition reject_world : world := {|
  library_present := true;
  exports := {[ optimize_sym; free_sym ]};
  engine := reject_engine;
  stdout_can_encode := utf8_stdout
|}.

(** An engine whose payload is not UTF-8. *)
Definition latin1_engine : Native.Engine := {|
  Native.Configuration := unit;
  Native.transform := fun _ _ => Native.Optimized [xe9];
  Native.default_configuration := tt;
  Native.trailer := [NUL];
  Native.undefined_size := 0
|}.

Definition latin1_world : world := {|
  library_present := true;
  exports := {[ optimize_sym; free_sym ]};
  engine := latin1_engine;
  stdout_can_encode := utf8_stdout
|}.

(** An engine whose payload is a euro sign, in a world whose standard output
    is plain ASCII. *)
Definition euro_engine : Native.Engine := {|
  Native.Configuration := unit;
  Native.transform := fun _ _ => Native.Optimized [xe2; x82; xac];
  Native.default_configuration := tt;
  Native.trailer := [NUL];
  Native.undefined_size := 0
|}.

Definition euro_on_ascii : world := {|
  library_present := true;
  exports := {[ optimize_sym; free_sym ]};
  engine := euro_engine;
  stdout_can_encode := ascii_stdout
|}.

(** The state in which the call of line 21 starts, the class statement
    having been run first: everything is bound and declared. *)
Definition before_call (w : world) : state :=
  final_state (run (take 7 (Sample.class_first w)) (initial_state w)).

(** A state in which [result] is a null pointer. *)
Definition null_result : state :=
  with_globals <["result" := VPointer VexyResult Native.NULL]>
    (before_call Sample.sample_world).

(** A state in which [result] points to a record that reports success with
    a null [data]. *)
Definition null_data : state := {|
  globals := {[ "result" := VPointer VexyResult 1 ]};
  lib_attrs := ∅;
  heap := {| Native.cells :=
               {[ 1%positive :=
                    Native.Rec [ Some (Native.I32 0); Some (Native.Ptr 0);
                                 Some (Native.Size 0); Some (Native.Size 0);
                                 Some (Native.Size 0); Some (Native.Ptr 0) ] ]};
             Native.brk := 2 |};
  ffi_calls := [];
  stdout := [];
  encoding := utf8_stdout
|}.

End Edge.

(* ===================================================================== *)
(** ** Heap lemmas *)
(* ===================================================================== *)

Section HeapFacts.
Import Native.

Lemma record_at_alloc (s : list (option scalar)) (h h' : heap) (a : positive) :
  alloc (Rec s) h = (a, h') ->
  a = brk h /\ brk h' = Pos.succ a /\ record_at h' (Npos a) = Some s.
Proof.
  intros [= <- <-]. cbn. by rewrite lookup_insert_eq.
Qed.

Lemma buffer_at_alloc (b : list byte) (h h' : heap) (d : positive) :
  alloc (Buf b) h = (d, h') ->
  d = brk h
  /\ buffer_at h' (Npos d) = Some b
  /\ forall a, a ≠ d -> record_at h' (Npos a) = record_at h (Npos a).
Proof.
  intros [= <- <-]. cbn. rewrite lookup_insert_eq. repeat split.
  intros a Hne. by rewrite lookup_insert_ne.
Qed.

Lemma record_at_store (a : positive) (i : nat) (v : scalar) (h : heap)
      (s : list (option scalar)) :
  record_at h (Npos a) = Some s ->
  record_at (store a i v h) (Npos a) = Some (<[i := Some v]> s).
Proof.
  unfold record_at, store; cbn. rewrite lookup_alter_eq.
  destruct (cells h !! a) as [[s'|b]|]; cbn; congruence.
Qed.

Lemma buffer_at_store (a : positive) (i : nat) (v : scalar) (h : heap)
      (q : ptr) :
  buffer_at (store a i v h) q = buffer_at h q.
Proof.
  destruct q as [|d]; [done|]. unfold buffer_at, store; cbn.
  destruct (decide (a = d)) as [->|Hne].
  - rewrite lookup_alter_eq. by destruct (cells h !! d) as [[s'|b]|].
  - by rewrite lookup_alter_ne.
Qed.

(** Six stores in a row on a fresh record. *)
Lemma record_at_filled (a : positive) (h : heap) (v0 v1 v2 v3 v4 v5 : scalar) :
  record_at h (Npos a) = Some (replicate field_count None) ->
  record_at
    (store a F_error_message v5
       (store a F_optimized_size v4
          (store a F_original_size v3
             (store a F_data_length v2
                (store a F_data v1 (store a F_error_code v0 h))))))
    (Npos a)
  = Some [Some v0; Some v1; Some v2; Some v3; Some v4; Some v5].
Proof.
  intros R0.
  pose proof (record_at_store a F_error_code v0 _ _ R0) as R1.
  pose proof (record_at_store a F_data v1 _ _ R1) as R2.
  pose proof (record_at_store a F_data_length v2 _ _ R2) as R3.
  pose proof (record_at_store a F_original_size v3 _ _ R3) as R4.
  pose proof (record_at_store a F_optimized_size v4 _ _ R4) as R5.
  pose proof (record_at_store a F_error_message v5 _ _ R5) as R6.
  exact R6.
Qed.

(** The record and the nested buffer left by the success path. *)
Lemma optimize_success (E : Engine) (input out : list byte)
      (cfg : Configuration E) (h : heap) :
  transform E cfg input = Optimized out ->
  (optimize E input cfg h).1 = Npos (brk h)
  /\ record_at (optimize E input cfg h).2 (Npos (brk h))
     = Some [ Some (I32 0); Some (Ptr (Npos (Pos.succ (brk h))));
              Some (Size (size_of out)); Some (Size (size_of input));
              Some (Size (size_of out)); Some (Ptr NULL) ]
  /\ buffer_at (optimize E input cfg h).2 (Npos (Pos.succ (brk h)))
     = Some (out ++ trailer E).
Proof.
  intros Hout. unfold optimize. rewrite Hout.
  destruct (alloc (Rec (replicate field_count None)) h) as [r h1] eqn:A1.
  destruct (alloc (Buf (out ++ trailer E)) h1) as [d h2] eqn:A2.
  apply record_at_alloc in A1 as (-> & Hbrk & R1).
  apply buffer_at_alloc in A2 as (-> & B2 & Keep).
  rewrite Hbrk in *. cbn [fst snd].
  split; [done|]. split.
  - apply record_at_filled. rewrite Keep; [done | lia].
  - by rewrite !buffer_at_store.
Qed.

(** The record and the nested buffer left by the failure path. *)
Lemma optimize_failure (E : Engine) (input : list byte) (k : error_kind)
      (cfg : Configuration E) (h : heap) :
  transform E cfg input = Failed k ->
  (optimize E input cfg h).1 = Npos (brk h)
  /\ record_at (optimize E input cfg h).2 (Npos (brk h))
     = Some [ Some (I32 (code_of k)); Some (Ptr NULL); Some (Size 0);
              Some (Size (size_of input)); Some (Size (undefined_size E));
              Some (Ptr (Npos (Pos.succ (brk h)))) ]
  /\ buffer_at (optimize E input cfg h).2 (Npos (Pos.succ (brk h)))
     = Some (describe k ++ [Bytes.NUL]).
Proof.
  intros Hout. unfold optimize. rewrite Hout.
  destruct (alloc (Rec (replicate field_count None)) h) as [r h1] eqn:A1.
  destruct (alloc (Buf (describe k ++ [Bytes.NUL])) h1) as [d h2] eqn:A2.
  apply record_at_alloc in A1 as (-> & Hbrk & R1).
  apply buffer_at_alloc in A2 as (-> & B2 & Keep).
  rewrite Hbrk in *. cbn [fst snd].
  split; [done|]. split.
  - apply record_at_filled. rewrite Keep; [done | lia].
  - by rewrite !buffer_at_store.
Qed.

End HeapFacts.


(* ===================================================================== *)
(** ** The producing operation *)
(* ===================================================================== *)

Section ProducerFacts.
Import Native.

Lemma take_app_length' (out rest : list byte) :
  (N.to_nat (size_of out) <=? length (out ++ rest))%nat = true
  /\ take (N.to_nat (size_of out)) (out ++ rest) = out.
Proof.
  unfold size_of. rewrite Nat2N.id. split.
  - apply Nat.leb_le. rewrite length_app. lia.
  - by rewrite take_app_length.
Qed.

Lemma describe_c_string (k : error_kind) :
  Bytes.c_string_at (describe k ++ [Bytes.NUL]) = Some (describe k)
  /\ exists b rest, describe k = b :: rest.
Proof. destruct k; (split; [reflexivity | cbn; eauto]). Qed.

Lemma load_record (h : heap) (p : ptr) (s : list (option scalar)) :
  record_at h p = Some s -> forall i, load h p i = mjoin (s !! i).
Proof. intros Hr i. unfold load. by rewrite Hr. Qed.


(** What the observers see on the success path. *)
Lemma success_view (E : Engine) (input out : list byte)
      (cfg : Configuration E) (h : heap) :
  transform E cfg input = Optimized out ->
  let r := optimize E input cfg h in
  non_null r = true
  /\ fully_populated r = true
  /\ error_code r = Some 0%Z
  /\ size_field r F_data_length = Some (size_of out)
  /\ size_field r F_original_size = Some (size_of input)
  /\ size_field r F_optimized_size = Some (size_of out)
  /\ data_payload r = Some out
  /\ pointer_field r F_error_message = Some NULL
  /\ message_text r = None.
Proof.
  intros Hout r. subst r.
  destruct (optimize_success E input out cfg h Hout) as (Hp & Hr & Hb).
  destruct (take_app_length' out (trailer E)) as [Hle Htake].
  destruct (optimize E input cfg h) as [p h']. cbn [fst snd] in *. subst p.
  pose proof (load_record _ _ _ Hr) as L.
  unfold non_null, fully_populated, data_payload, message_text,
    message_buffer, error_code, size_field, pointer_field.
  cbn [fst snd]. rewrite Hr, !L. cbn -[buffer_at take Nat.leb].
  rewrite Hb. cbn -[take Nat.leb]. rewrite Hle, Htake. done.
Qed.

(** What the observers see on the failure path. *)
Lemma failure_view (E : Engine) (input : list byte) (k : error_kind)
      (cfg : Configuration E) (h : heap) :
  transform E cfg input = Failed k ->
  let r := optimize E input cfg h in
  non_null r = true
  /\ fully_populated r = true
  /\ error_code r = Some (code_of k)
  /\ size_field r F_original_size = Some (size_of input)
  /\ pointer_field r F_data = Some NULL
  /\ data_payload r = None
  /\ message_buffer r = Some (describe k ++ [Bytes.NUL])
  /\ message_text r = Some (describe k).
Proof.
  intros Hout r. subst r.
  destruct (optimize_failure E input k cfg h Hout) as (Hp & Hr & Hb).
  destruct (describe_c_string k) as [Hc _].
  destruct (optimize E input cfg h) as [p h']. cbn [fst snd] in *. subst p.
  pose proof (load_record _ _ _ Hr) as L.
  unfold non_null, fully_populated, data_payload, message_text,
    message_buffer, error_code, size_field, pointer_field.
  cbn [fst snd]. rewrite Hr, !L. cbn -[buffer_at Bytes.c_string_at describe].
  rewrite Hb. cbn -[Bytes.c_string_at describe]. rewrite Hc. done.
Qed.

End ProducerFacts.

(* ===================================================================== *)
(** ** The engine: what it refuses and what it returns *)
(* ===================================================================== *)

Section SvgoFacts.
Import Bytes Native Svgo.
















End SvgoFacts.

Section BoundaryClaims.
Import Native.

Lemma populated_load (r : ptr * heap) (i : nat) :
  fully_populated r = true -> (i < field_count)%nat ->
  is_Some (load r.2 r.1 i).
Proof.
  unfold fully_populated, load. destruct (record_at r.2 r.1) as [s|]; [|done].
  unfold all_written. intros [Hlen Hall]%andb_true_iff Hi. cbn.
  apply Nat.eqb_eq in Hlen. rewrite forallb_forall in Hall.
  destruct (lookup_lt_is_Some_2 s i) as [c Hc]; [lia|].
  rewrite Hc. cbn. apply list_elem_of_lookup_2, list_elem_of_In in Hc.
  apply Hall in Hc. by apply bool_decide_eq_true in Hc.
Qed.

(** C1. For every valid input (an input the engine accepts, with output
    [out]), [optimize] returns a record with [error_code = 0], with
    [data_length] equal to [optimized_size] (both the byte length of the
    output, which is what [data] holds), and with [original_size] equal to
    the exact byte length of the input. *)
Theorem optimize_valid_input (E : Engine) (cfg : Configuration E)
        (input out : list byte) (h : heap) :
  transform E cfg input = Optimized out ->
  error_code (optimize E input cfg h) = Some 0%Z
  /\ size_field (optimize E input cfg h) F_data_length
     = size_field (optimize E input cfg h) F_optimized_size
  /\ size_field (optimize E input cfg h) F_optimized_size
     = Some (N.of_nat (length out))
  /\ size_field (optimize E input cfg h) F_original_size
     = Some (N.of_nat (length input))
  /\ data_payload (optimize E input cfg h) = Some out.
Proof.
  intros Hout.
  destruct (success_view E input out cfg h Hout)
    as (_ & _ & Hc & Hdl & Hos & Hzs & Hpay & _).
  rewrite Hc, Hdl, Hos, Hzs, Hpay. done.
Qed.

Lemma optimize_valid_input_witness :
  transform Sample.sample_engine tt Script.svg
  = Optimized (Bytes.ungroup Script.svg)
  /\ error_code (optimize Sample.sample_engine Script.svg tt empty_heap)
     = Some 0%Z
  /\ size_field (optimize Sample.sample_engine Script.svg tt empty_heap)
       F_data_length
     = size_field (optimize Sample.sample_engine Script.svg tt empty_heap)
         F_optimized_size
  /\ size_field (optimize Sample.sample_engine Script.svg tt empty_heap)
       F_optimized_size
     = Some (N.of_nat (length (Bytes.ungroup Script.svg)))
  /\ size_field (optimize Sample.sample_engine Script.svg tt empty_heap)
       F_original_size
     = Some (N.of_nat (length Script.svg))
  /\ data_payload (optimize Sample.sample_engine Script.svg tt empty_heap)
     = Some (Bytes.ungroup Script.svg).
Proof.
  split; [reflexivity|].
  apply (optimize_valid_input Sample.sample_engine tt Script.svg
           (Bytes.ungroup Script.svg) empty_heap).
  reflexivity.
Defined.






(** C6. For every input, [optimize] returns a non-null pointer to a record
    all six slots of which have been written, on the success path and on
    the failure path alike; so whichever field of [VexyResult] a caller
    reads after branching on [error_code], the slot behind it was
    written. *)
Theorem always_fully_populated (E : Engine) (cfg : Configuration E)
        (input : list byte) (h : heap) :
  non_null (optimize E input cfg h) = true
  /\ fully_populated (optimize E input cfg h) = true
  /\ forallb (Script.field_written Ctypes.VexyResult
                (optimize E input cfg h).2 (optimize E input cfg h).1)
             (Ctypes._fields_ Ctypes.VexyResult).*1 = true.
Proof.
  assert (Hnp : non_null (optimize E input cfg h) = true
                /\ fully_populated (optimize E input cfg h) = true).
  { destruct (transform E cfg input) as [out|k] eqn:Hout.
    - destruct (success_view E input out cfg h Hout) as (? & ? & _); done.
    - destruct (failure_view E input k cfg h Hout) as (? & ? & _); done. }
  destruct Hnp as [Hn Hp]. split; [done|]. split; [done|].
  apply forallb_forall. intros name Hin. unfold Script.field_written.
  cbn in Hin.
  repeat (destruct Hin as [<- | Hin];
          [cbn; apply bool_decide_eq_true, populated_load; [done | cbv; lia]|]).
  destruct Hin.
Qed.

End BoundaryClaims.


(* ===================================================================== *)
(** ** Running the statements of the script *)
(* ===================================================================== *)

#[local] Set Warnings "-clear-no-such-hyp".

Section ScriptFacts.
Import Bytes Ctypes Script.

Lemma run_step_ok (n : nat) (c : M unit) (rest : list (nat * M unit))
      (s s' : state) :
  c s = (Ok tt, s') -> run ((n, c) :: rest) s = run rest s'.
Proof. intros H. cbn. by rewrite H. Qed.

Lemma run_step_raise (n : nat) (c : M unit) (rest : list (nat * M unit))
      (s s' : state) (e : exn) :
  c s = (Raise e, s') -> run ((n, c) :: rest) s = Aborted n e s'.
Proof. intros H. cbn. by rewrite H. Qed.

Lemma ctypes_module_bound (s : state) :
  globals s !! "ctypes" = Some VModule -> ctypes_module s = (Ok tt, s).
Proof. intros H. unfold ctypes_module, bind, lookup_name. by rewrite H. Qed.

Lemma the_class_unbound (x : string) (s : state) :
  globals s !! x = None -> the_class x s = (Raise (NameError x), s).
Proof. intros H. unfold the_class, bind, lookup_name. by rewrite H. Qed.

Lemma lib_getattr_fresh (w : world) (sym : string) (s : state) :
  globals s !! "lib" = Some VLib ->
  lib_attrs s !! sym = None ->
  lib_getattr w sym s
  = if bool_decide (sym ∈ exports w)
    then (Ok fresh_funcptr, with_lib_attrs <[sym := fresh_funcptr]> s)
    else (Raise (AttributeError sym), s).
Proof.
  intros Hl Ha. unfold lib_getattr, bind, lookup_name. by rewrite Hl, Ha.
Qed.

Lemma lib_getattr_cached (w : world) (sym : string) (f : FuncPtr) (s : state) :
  globals s !! "lib" = Some VLib ->
  lib_attrs s !! sym = Some f ->
  lib_getattr w sym s = (Ok f, s).
Proof.
  intros Hl Ha. unfold lib_getattr, bind, lookup_name. by rewrite Hl, Ha.
Qed.

Lemma line4_spec (w : world) (s : state) :
  globals s !! "ctypes" = Some VModule ->
  line4 w s
  = if library_present w
    then (Ok tt, with_globals <["lib" := VLib]> s)
    else (Raise OSError, s).
Proof.
  intros Hc. unfold line4, bind. rewrite (ctypes_module_bound s Hc).
  by destruct (library_present w).
Qed.

Lemma line7_spec (w : world) (s : state) :
  globals s !! "ctypes" = Some VModule ->
  globals s !! "lib" = Some VLib ->
  lib_attrs s !! optimize_sym = None ->
  line7 w s
  = if bool_decide (optimize_sym ∈ exports w)
    then (Ok tt,
          with_lib_attrs
            <[optimize_sym := {| argtypes := Some [Simple c_char_p];
                                 restype := Some (Simple c_int) |}]> s)
    else (Raise (AttributeError optimize_sym), s).
Proof.
  intros Hc Hl Ha. unfold line7, bind.
  rewrite (ctypes_module_bound s Hc), (lib_getattr_fresh w _ s Hl Ha).
  case_bool_decide; [|done].
  unfold set_argtypes, modify, with_lib_attrs. cbn.
  by rewrite alter_insert_eq.
Qed.

Lemma line8_unbound (w : world) (s : state) :
  globals s !! "ctypes" = Some VModule ->
  globals s !! "VexyResult" = None ->
  line8 w s = (Raise (NameError "VexyResult"), s).
Proof.
  intros Hc Hv. unfold line8, bind.
  by rewrite (ctypes_module_bound s Hc), (the_class_unbound _ s Hv).
Qed.


Lemma result_contents_spec (name : string) (c : Structure_class)
      (r : positive) (s : state) :
  globals s !! "result" = Some (VPointer c (Npos r)) ->
  result_contents name s = getfield c name (Npos r) s.
Proof.
  intros H. unfold result_contents, bind, lookup_name. by rewrite H.
Qed.

Lemma getfield_c_int (c : Structure_class) (name : string) (i : nat)
      (p : Native.ptr) (z : Z) (s : state) :
  field_index (_fields_ c) name = Some (i, c_int) ->
  Native.load (heap s) p i = Some (Native.I32 z) ->
  getfield c name p s = (Ok (VInt (wrap32 z)), s).
Proof.
  intros Hf Hl. unfold getfield, bind, gets. by rewrite Hf, Hl.
Qed.

Lemma getfield_c_char_p (c : Structure_class) (name : string) (i : nat)
      (p : Native.ptr) (d : positive) (b : list byte) (s : state) :
  field_index (_fields_ c) name = Some (i, c_char_p) ->
  Native.load (heap s) p i = Some (Native.Ptr (Npos d)) ->
  Native.buffer_at (heap s) (Npos d) = Some b ->
  getfield c name p s
  = match c_string_at b with
    | Some cs => (Ok (VBytes cs), s)
    | None => (Raise NativeFault, s)
    end.
Proof.
  intros Hf Hl Hb. unfold getfield, bind, gets. rewrite Hf, Hl, Hb.
  by destruct (c_string_at b).
Qed.

Lemma c_string_at_terminated (pre rest : list byte) :
  has_nul pre = false -> c_string_at (pre ++ NUL :: rest) = Some pre.
Proof.
  induction pre as [|b pre IH]; [done|].
  cbn. intros [Hb Hp]%orb_false_iff. by rewrite Hb, (IH Hp).
Qed.

End ScriptFacts.

(* ===================================================================== *)
(** ** The symbols the script reaches *)
(* ===================================================================== *)

Section TwoSymbols.
Import Bytes Ctypes Script.

Lemma two_symbols_same {A} (c : M A) :
  (forall s, lib_attrs (c s).2 = lib_attrs s /\ ffi_calls (c s).2 = ffi_calls s) ->
  two_symbols_only c.
Proof.
  intros H s. destruct (H s) as [Ha Hf]. unfold symbols_of.
  rewrite Ha, Hf. set_solver.
Qed.

Lemma two_symbols_ret {A} (a : A) : two_symbols_only (ret a).
Proof. by apply two_symbols_same. Qed.

Lemma two_symbols_raise {A} (e : exn) : two_symbols_only (@raise A e).
Proof. by apply two_symbols_same. Qed.

Lemma two_symbols_bind {A B} (m : M A) (k : A -> M B) :
  two_symbols_only m -> (forall a, two_symbols_only (k a)) ->
  two_symbols_only (bind m k).
Proof.
  intros Hm Hk s. unfold bind. specialize (Hm s).
  destruct (m s) as [[a|e] s'] eqn:E; cbn [snd] in *.
  - specialize (Hk a s'). set_solver.
  - done.
Qed.

Lemma two_symbols_lookup_name (x : string) : two_symbols_only (lookup_name x).
Proof.
  apply two_symbols_same. intros s. unfold lookup_name.
  by destruct (globals s !! x).
Qed.

Lemma two_symbols_bind_name (x : string) (v : value) :
  two_symbols_only (bind_name x v).
Proof. by apply two_symbols_same. Qed.

Lemma two_symbols_print (t : list N) : two_symbols_only (print t).
Proof.
  apply two_symbols_same. intros s. unfold print.
  by destruct (forallb (encodable s) t).
Qed.

Lemma two_symbols_gets {A} (f : state -> A) : two_symbols_only (gets f).
Proof. by apply two_symbols_same. Qed.

Lemma two_symbols_set_argtypes (sym : string) (ts : list ctype) :
  two_symbols_only (set_argtypes sym ts).
Proof.
  intros s. unfold symbols_of. cbn. rewrite dom_alter_L. set_solver.
Qed.

Lemma two_symbols_set_restype (sym : string) (t : option ctype) :
  two_symbols_only (set_restype sym t).
Proof.
  intros s. unfold symbols_of. cbn. rewrite dom_alter_L. set_solver.
Qed.

Lemma two_symbols_lib_getattr (w : world) (sym : string) :
  sym ∈ ({[ optimize_sym; free_sym ]} : gset string) ->
  two_symbols_only (lib_getattr w sym).
Proof.
  intros Hsym. unfold lib_getattr. apply two_symbols_bind.
  - apply two_symbols_lookup_name.
  - intros v. destruct v; try apply two_symbols_raise.
    intros s. destruct (lib_attrs s !! sym); [set_solver|].
    case_bool_decide; [|set_solver].
    unfold symbols_of. cbn. rewrite dom_insert_L. set_solver.
Qed.

Lemma two_symbols_ctypes_module : two_symbols_only ctypes_module.
Proof.
  apply two_symbols_bind; [apply two_symbols_lookup_name|].
  intros v. destruct v; first [apply two_symbols_ret | apply two_symbols_raise].
Qed.

Lemma two_symbols_the_class (x : string) : two_symbols_only (the_class x).
Proof.
  apply two_symbols_bind; [apply two_symbols_lookup_name|].
  intros v. destruct v; first [apply two_symbols_ret | apply two_symbols_raise].
Qed.

Lemma two_symbols_as_char_p (f : FuncPtr) (a : value) :
  two_symbols_only (as_char_p f a).
Proof.
  unfold as_char_p.
  repeat case_match; first [apply two_symbols_ret | apply two_symbols_raise].
Qed.

Lemma two_symbols_as_pointer (f : FuncPtr) (a : value) :
  two_symbols_only (as_pointer f a).
Proof.
  unfold as_pointer.
  repeat case_match; first [apply two_symbols_ret | apply two_symbols_raise].
Qed.

Lemma two_symbols_as_result (f : FuncPtr) (p : Native.ptr) :
  two_symbols_only (as_result f p).
Proof.
  unfold as_result.
  repeat case_match; first [apply two_symbols_ret | apply two_symbols_raise].
Qed.

Lemma two_symbols_call_optimize (w : world) (f : FuncPtr) (a : value) :
  two_symbols_only (call_optimize w f a).
Proof.
  unfold call_optimize.
  apply two_symbols_bind; [apply two_symbols_as_char_p|]. intros mem.
  apply two_symbols_bind; [|intros p; apply two_symbols_as_result].
  intros s. destruct (Native.optimize_default _ _ _) as [p h].
  unfold symbols_of. cbn. rewrite fmap_app, list_to_set_app_L. cbn.
  set_solver.
Qed.

Lemma two_symbols_call_free (w : world) (f : FuncPtr) (a : value) :
  two_symbols_only (call_free w f a).
Proof.
  unfold call_free.
  apply two_symbols_bind; [apply two_symbols_as_pointer|]. intros p s.
  unfold symbols_of. cbn. rewrite fmap_app, list_to_set_app_L. cbn.
  set_solver.
Qed.

Lemma two_symbols_getfield (c : Structure_class) (name : string)
      (p : Native.ptr) :
  two_symbols_only (getfield c name p).
Proof.
  unfold getfield. destruct (field_index _ _) as [[i t]|];
    [|apply two_symbols_raise].
  apply two_symbols_bind; [apply two_symbols_gets|]. intros h.
  repeat case_match; first [apply two_symbols_ret | apply two_symbols_raise].
Qed.

Lemma two_symbols_result_contents (name : string) :
  two_symbols_only (result_contents name).
Proof.
  apply two_symbols_bind; [apply two_symbols_lookup_name|]. intros v.
  destruct v; try apply two_symbols_raise.
  case_match; [apply two_symbols_raise | apply two_symbols_getfield].
Qed.

Lemma two_symbols_decode (v : value) : two_symbols_only (decode v).
Proof.
  unfold decode.
  repeat case_match; first [apply two_symbols_ret | apply two_symbols_raise].
Qed.

Lemma optimize_sym_allowed :
  optimize_sym ∈ ({[ optimize_sym; free_sym ]} : gset string).
Proof. set_solver. Qed.

Lemma free_sym_allowed :
  free_sym ∈ ({[ optimize_sym; free_sym ]} : gset string).
Proof. set_solver. Qed.

Create HintDb two_symbols.

#[local] Hint Resolve two_symbols_ret two_symbols_raise two_symbols_bind
  two_symbols_lookup_name two_symbols_bind_name two_symbols_print
  two_symbols_set_argtypes two_symbols_set_restype two_symbols_lib_getattr
  two_symbols_ctypes_module two_symbols_the_class two_symbols_call_optimize
  two_symbols_call_free two_symbols_result_contents two_symbols_decode
  optimize_sym_allowed free_sym_allowed : two_symbols.


End TwoSymbols.

(* ===================================================================== *)
(** ** The script and the boundary it declares *)
(* ===================================================================== *)

Section ScriptClaims.
Import Bytes Ctypes Script.

(** With the class statement first, the script runs to its end in the
    sample world: it calls the two entry points once each, prints the
    document without its group, and leaves nothing allocated. *)
Example class_first_runs :
  aborted_at (run (Sample.class_first Sample.sample_world)
             (initial_state Sample.sample_world))
  = None
  /\ (ffi_calls
        (final_state
           (run (Sample.class_first Sample.sample_world)
             (initial_state Sample.sample_world)))).*1
     = [ "vexy_svgo_optimize_default"; "vexy_svgo_free_result" ]
  /\ stdout
       (final_state
          (run (Sample.class_first Sample.sample_world)
             (initial_state Sample.sample_world)))
     = (Byte.to_N <$> ungroup svg) ++ [10]
  /\ Native.cells
       (heap
          (final_state
             (run (Sample.class_first Sample.sample_world)
             (initial_state Sample.sample_world))))
     = ∅.
Proof. vm_compute. done. Qed.


(** C5. The boundary record has exactly six fields, in the order
    [error_code], [data], [data_length], [original_size], [optimized_size],
    [error_message]; field by field its ABI is that of the specification's
    table: a signed 32-bit integer, then a pointer, three unsigned sizes of
    the platform's width, and a pointer. *)
Theorem VexyResult_matches_boundary_table (pw : N) :
  length (_fields_ VexyResult) = 6%nat
  /\ (_fields_ VexyResult).*1
     = [ "error_code"; "data"; "data_length"; "original_size";
         "optimized_size"; "error_message" ]
  /\ prod_map id abi_of <$> _fields_ VexyResult
     = prod_map id abi_of_spec <$> spec_table
  /\ (fun t => width_bits pw (abi_of t)) <$> (_fields_ VexyResult).*2
     = [32; pw; pw; pw; pw; pw]
  /\ (fun t => is_signed (abi_of t)) <$> (_fields_ VexyResult).*2
     = [true; false; false; false; false; false].
Proof. repeat split. Qed.

(** C7, in the form the script supports.  On success the caller reads
    [data] as a NUL-terminated string and never looks at [data_length]:
    whatever that field holds, it decodes the bytes that precede the first
    NUL found at [data] and prints them.  It raises [UnicodeDecodeError]
    when those bytes are not UTF-8 and [UnicodeEncodeError] when the
    encoding of [sys.stdout] cannot represent the decoded text. *)
Theorem caller_reads_c_string (s : state) (r d : positive)
        (slots : list (option Native.scalar)) (pre rest : list byte) :
  globals s !! "result" = Some (VPointer VexyResult (Npos r)) ->
  Native.record_at (heap s) (Npos r) = Some slots ->
  slots !! Native.F_error_code = Some (Some (Native.I32 0)) ->
  slots !! Native.F_data = Some (Some (Native.Ptr (Npos d))) ->
  Native.buffer_at (heap s) (Npos d) = Some (pre ++ NUL :: rest) ->
  has_nul pre = false ->
  line23 s
  = match utf8_decode pre with
    | Some t =>
      if forallb (encodable s) t
      then (Ok tt, with_stdout (fun out => out ++ t ++ [10]) s)
      else (Raise UnicodeEncodeError, s)
    | None => (Raise UnicodeDecodeError, s)
    end.
Proof.
  intros Hres Hrec Hec Hdata Hbuf Hnul.
  assert (L0 : Native.load (heap s) (Npos r) 0 = Some (Native.I32 0)).
  { unfold Native.load. rewrite Hrec. cbn. unfold Native.F_error_code in Hec.
    by rewrite Hec. }
  assert (L1 : Native.load (heap s) (Npos r) 1 = Some (Native.Ptr (Npos d))).
  { unfold Native.load. rewrite Hrec. cbn. unfold Native.F_data in Hdata.
    by rewrite Hdata. }
  unfold line23, bind.
  rewrite (result_contents_spec "error_code" _ _ s Hres).
  rewrite (getfield_c_int VexyResult "error_code" 0 _ 0 s eq_refl L0).
  cbn beta iota. change (equals_zero (VInt (wrap32 0))) with true.
  cbn beta iota.
  rewrite (result_contents_spec "data" _ _ s Hres).
  rewrite (getfield_c_char_p VexyResult "data" 1 _ d _ s eq_refl L1 Hbuf).
  rewrite (c_string_at_terminated pre rest Hnul).
  unfold decode. by destruct (utf8_decode pre).
Qed.

Lemma caller_reads_c_string_witness :
  line23 (Sample.before_branch Sample.nul_world)
  = (Ok tt,
     with_stdout (fun out => out ++ [97] ++ [10])
       (Sample.before_branch Sample.nul_world)).
Proof.
  exact (caller_reads_c_string
           (Sample.before_branch Sample.nul_world) 1 2
           [ Some (Native.I32 0); Some (Native.Ptr 2); Some (Native.Size 3);
             Some (Native.Size 50); Some (Native.Size 3);
             Some (Native.Ptr 0) ]
           ["a"%byte] ["b"%byte; NUL]
           eq_refl eq_refl eq_refl eq_refl eq_refl eq_refl).
Defined.

(** C7, as stated, fails: for a three-byte payload with a NUL in the middle
    ([data_length = 3]) the caller prints one character and a newline, not
    the three characters of the payload. *)
Lemma caller_truncates_at_nul :
  globals (Sample.before_branch Sample.nul_world) !! "result"
  = Some (VPointer VexyResult 1)
  /\ Native.error_code (1, heap (Sample.before_branch Sample.nul_world))
     = Some 0%Z
  /\ Native.size_field (1, heap (Sample.before_branch Sample.nul_world))
       Native.F_data_length
     = Some 3
  /\ Native.data_payload (1, heap (Sample.before_branch Sample.nul_world))
     = Some ["a"%byte; NUL; "b"%byte]
  /\ utf8_decode ["a"%byte; NUL; "b"%byte] = Some [97; 0; 98]
  /\ (line23 (Sample.before_branch Sample.nul_world)).1 = Ok tt
  /\ stdout (line23 (Sample.before_branch Sample.nul_world)).2 = [97; 10].
Proof. vm_compute. done. Qed.



(** C10, in the form the script supports.  In every environment the script stops with an exception
    before any native function is called and before anything is printed:
    with [OSError] at line 4 when the library cannot be loaded, with
    [AttributeError] at line 7 when it does not export
    [vexy_svgo_optimize_default], and otherwise with
    [NameError: VexyResult] at line 8, the assignment of [restype], the
    class being defined only from line 11 on. *)
Theorem script_stops_before_any_call (w : world) :
  exists s,
    run_script w
    = (if negb (library_present w) then Aborted 4 OSError s
       else if bool_decide (optimize_sym ∈ exports w)
            then Aborted 8 (NameError "VexyResult") s
            else Aborted 7 (AttributeError optimize_sym) s)
    /\ ffi_calls s = []
    /\ stdout s = []
    /\ globals s !! "VexyResult" = None.
Proof.
  unfold run_script, script.
  rewrite (run_step_ok 1 line1 _ (initial_state w)
             (with_globals <["ctypes" := VModule]> (initial_state w)) eq_refl).
  set (s1 := with_globals <["ctypes" := VModule]> (initial_state w)).
  pose proof (line4_spec w s1 eq_refl) as H4.
  destruct (library_present w); cbn [negb].
  2:{ exists s1. by rewrite (run_step_raise _ _ _ _ _ _ H4). }
  rewrite (run_step_ok _ _ _ _ _ H4).
  set (s2 := with_globals <["lib" := VLib]> s1).
  pose proof (line7_spec w s2 eq_refl eq_refl eq_refl) as H7.
  case_bool_decide.
  2:{ exists s2. by rewrite (run_step_raise _ _ _ _ _ _ H7). }
  rewrite (run_step_ok _ _ _ _ _ H7).
  set (s3 := with_lib_attrs _ s2).
  exists s3.
  by rewrite (run_step_raise _ _ _ _ _ _ (line8_unbound w s3 eq_refl eq_refl)).
Qed.

(** C10, as stated, fails where the library is missing: the script then
    stops at line 4 with [OSError] and never reaches line 8. *)
Lemma missing_library_raises_OSError :
  aborted_at (run_script Sample.no_library) = Some (4%nat, OSError)
  /\ ffi_calls (final_state (run_script Sample.no_library)) = [].
Proof. vm_compute. done. Qed.

End ScriptClaims.

(* ===================================================================== *)
(** ** C strings and decoding *)
(* ===================================================================== *)

Section ByteFacts.
Import Bytes Edge.

Lemma c_string_at_c_str (b rest : list byte) :
  c_string_at (b ++ NUL :: rest) = Some (c_str b).
Proof.
  induction b as [|x b IH]; [done|].
  cbn. destruct (is_nul x); [done|]. by rewrite IH.
Qed.

Lemma c_str_no_nul (b : list byte) : has_nul (c_str b) = false.
Proof.
  induction b as [|x b IH]; [done|].
  cbn. destruct (is_nul x) eqn:E; [done|]. cbn. by rewrite E.
Qed.

Lemma c_str_prefix (b : list byte) : c_str b `prefix_of` b.
Proof.
  induction b as [|x b IH]; [done|].
  cbn. destruct (is_nul x); [apply prefix_nil|]. by apply prefix_cons.
Qed.

Lemma c_str_id (b : list byte) : c_str b = b <-> has_nul b = false.
Proof.
  induction b as [|x b IH]; [done|].
  cbn. destruct (is_nul x); cbn; [split; discriminate|].
  rewrite <- IH. split; [by intros [= ->] | by intros ->].
Qed.

Lemma c_str_terminator (b : list byte) : c_str (b ++ [NUL]) = c_str b.
Proof.
  induction b as [|x b IH]; [done|]. cbn. destruct (is_nul x); [done|].
  by rewrite IH.
Qed.


(** X10. Reading back as a C string what was laid down with a terminator: the
    read yields the bytes before the first NUL, which are NUL-free and a
    prefix of what was written, and are all of it exactly when it held no
    NUL. *)
Theorem c_string_round_trip (b rest : list byte) :
  c_string_at (b ++ NUL :: rest) = Some (c_str b)
  /\ c_str (b ++ NUL :: rest) = c_str b
  /\ has_nul (c_str b) = false
  /\ c_str b `prefix_of` b
  /\ (c_str b = b <-> has_nul b = false).
Proof.
  split; [apply c_string_at_c_str|]. split.
  { induction b as [|x b IH]; [done|]. cbn. destruct (is_nul x); [done|].
    by rewrite IH. }
  split; [apply c_str_no_nul|]. split; [apply c_str_prefix | apply c_str_id].
Qed.


Lemma to_N_le (b : byte) : Byte.to_N b <= 255.
Proof. apply Byte.to_N_bounded. Qed.

Lemma scalar_value_iff (n : N) :
  scalar_value n = true <-> n < 0xD800 \/ (0xE000 <= n /\ n < 0x110000).
Proof.
  unfold scalar_value.
  rewrite orb_true_iff, andb_true_iff, N.leb_le, !N.ltb_lt. done.
Qed.

Ltac bounds :=
  unfold between, continuation in *;
  repeat match goal with
         | H : _ && _ = true |- _ => apply andb_true_iff in H as [? ?]
         | H : (_ <=? _) = true |- _ => apply N.leb_le in H
         | H : (_ <? _) = true |- _ => apply N.ltb_lt in H
         | H : (_ <? _) = false |- _ => apply N.ltb_ge in H
         | H : (_ =? _) = true |- _ => apply N.eqb_eq in H
         | H : (_ =? _) = false |- _ => apply N.eqb_neq in H
         end.

Ltac decoded IH Hlen :=
  let t0 := fresh "t" in
  let D := fresh "D" in
  let Hs := fresh "Hs" in
  let Hl := fresh "Hl" in
  destruct (utf8_decode _) as [t0|] eqn:D; [|done];
  cbn [fmap option_fmap option_map]; intros [= <-];
  lazymatch type of D with
  | utf8_decode ?r = _ =>
    destruct (IH r t0) as [Hs Hl]; [cbn in Hlen; lia | exact D |]
  end;
  cbn [forallb length]; split; [|lia];
  apply andb_true_iff; split; [|exact Hs];
  apply scalar_value_iff.

Lemma utf8_decode_sound (n : nat) :
  forall (l : list byte) (t : list N),
    (length l <= n)%nat -> utf8_decode l = Some t ->
    forallb scalar_value t = true /\ (length t <= length l)%nat.
Proof.
  induction n as [|n IH]; intros l t Hlen.
  { destruct l; [|cbn in Hlen; lia]. by intros [= <-]. }
  destruct l as [|b0 r0]; [by intros [= <-]|].
  cbn [utf8_decode]. cbv zeta.
  pose proof (to_N_le b0) as B0.
  destruct (Byte.to_N b0 <? 0x80) eqn:E1.
  { decoded IH Hlen. bounds. lia. }
  destruct (between 0xC2 (Byte.to_N b0) 0xDF) eqn:E2.
  { destruct r0 as [|b1 r1]; [done|].
    destruct (continuation (Byte.to_N b1)) eqn:C1; [|done].
    decoded IH Hlen. bounds. lia. }
  destruct (between 0xE0 (Byte.to_N b0) 0xEF) eqn:E3.
  { destruct r0 as [|b1 [|b2 r2]]; [done|done|].
    pose proof (to_N_le b1). pose proof (to_N_le b2).
    destruct (Byte.to_N b0 =? 0xE0) eqn:Q1;
      destruct (Byte.to_N b0 =? 0xED) eqn:Q2;
      (match goal with
       | |- context [if ?c && ?d then _ else _] => destruct (c && d) eqn:C1
       end; [|done]);
      decoded IH Hlen; bounds; lia. }
  destruct (between 0xF0 (Byte.to_N b0) 0xF4) eqn:E4; [|done].
  destruct r0 as [|b1 [|b2 [|b3 r3]]]; [done|done|done|].
  pose proof (to_N_le b1). pose proof (to_N_le b2). pose proof (to_N_le b3).
  destruct (Byte.to_N b0 =? 0xF0) eqn:Q1;
    destruct (Byte.to_N b0 =? 0xF4) eqn:Q2;
    (match goal with
     | |- context [if ?c && ?d then _ else _] => destruct (c && d) eqn:C1
     end; [|done]);
    decoded IH Hlen; bounds; lia.
Qed.

(** X9. Whatever [decode] returns is made of Unicode scalar values (no
    surrogate, nothing above U+10FFFF) and has at most as many characters
    as there were bytes. *)
Theorem decode_yields_scalar_values (l : list byte) (t : list N) :
  utf8_decode l = Some t ->
  forallb scalar_value t = true /\ (length t <= length l)%nat.
Proof. intros H. exact (utf8_decode_sound (length l) l t (le_n _) H). Qed.

Lemma decode_yields_scalar_values_witness :
  utf8_decode [xe2; x82; xac] = Some [8364]
  /\ forallb scalar_value [8364] = true
  /\ (length [8364%N] <= length [xe2; x82; xac])%nat.
Proof.
  split; [reflexivity|].
  exact (decode_yields_scalar_values [xe2; x82; xac] [8364] eq_refl).
Defined.

End ByteFacts.

(* ===================================================================== *)
(** ** The branch of lines 23-26 *)
(* ===================================================================== *)

Section BranchFacts.
Import Bytes Ctypes Script Edge.

Lemma read_only_ret {A} (a : A) : read_only (ret a).
Proof. done. Qed.

Lemma read_only_raise {A} (e : exn) : read_only (@raise A e).
Proof. done. Qed.

Lemma read_only_bind {A B} (m : M A) (k : A -> M B) :
  read_only m -> (forall a, read_only (k a)) -> read_only (bind m k).
Proof.
  intros Hm Hk s. unfold bind. specialize (Hm s).
  destruct (m s) as [[a|e] s']; cbn in *; subst s'; [apply Hk | done].
Qed.

Lemma read_only_lookup_name (x : string) : read_only (lookup_name x).
Proof. intros s. unfold lookup_name. by destruct (globals s !! x). Qed.

Lemma read_only_gets {A} (f : state -> A) : read_only (gets f).
Proof. done. Qed.

Lemma read_only_getfield (c : Structure_class) (name : string)
      (p : Native.ptr) :
  read_only (getfield c name p).
Proof.
  unfold getfield. destruct (field_index _ _) as [[i t]|];
    [|apply read_only_raise].
  apply read_only_bind; [apply read_only_gets|]. intros h.
  repeat case_match; first [apply read_only_ret | apply read_only_raise].
Qed.

Lemma read_only_result_contents (name : string) :
  read_only (result_contents name).
Proof.
  apply read_only_bind; [apply read_only_lookup_name|]. intros v.
  destruct v; try apply read_only_raise.
  case_match; [apply read_only_raise | apply read_only_getfield].
Qed.

Lemma read_only_decode (v : value) : read_only (decode v).
Proof.
  unfold decode.
  repeat case_match; first [apply read_only_ret | apply read_only_raise].
Qed.

(** Sequencing after a read-only computation. *)
Lemma bind_read_only {A B} (m : M A) (k : A -> M B) (s : state) :
  read_only m ->
  bind m k s = match (m s).1 with
               | Ok a => k a s
               | Raise e => (Raise e, s)
               end.
Proof.
  intros Hm. unfold bind. specialize (Hm s).
  destruct (m s) as [[a|e] s']; cbn in *; by subst s'.
Qed.

Lemma branch_effect (s : state) :
  match line23 s with
  | (Ok _, s') => exists t, s' = with_stdout (fun out => out ++ t ++ [10]) s
  | (Raise _, s') => s' = s
  end.
Proof.
  unfold line23.
  rewrite bind_read_only by apply read_only_result_contents.
  destruct (result_contents "error_code" s).1 as [ec|e]; [|done].
  destruct (equals_zero ec).
  - rewrite bind_read_only by apply read_only_result_contents.
    destruct (result_contents "data" s).1 as [d|e]; [|done].
    rewrite bind_read_only by apply read_only_decode.
    destruct (decode d s).1 as [t|e]; [|done].
    unfold print. destruct (forallb (encodable s) t); [by exists t | done].
  - rewrite bind_read_only by apply read_only_result_contents.
    destruct (result_contents "error_message" s).1 as [m|e]; [|done].
    rewrite bind_read_only by apply read_only_decode.
    destruct (decode m s).1 as [t|e]; [|done].
    unfold print. destruct (forallb _ _); [|done].
    by exists (str_of_string "Error: " ++ t).
Qed.

Lemma getfield_null_char_p (c : Structure_class) (name : string) (i : nat)
      (p : Native.ptr) (s : state) :
  field_index (_fields_ c) name = Some (i, c_char_p) ->
  Native.load (heap s) p i = Some (Native.Ptr 0) ->
  getfield c name p s = (Ok VNone, s).
Proof.
  intros Hf Hl. unfold getfield, bind, gets. by rewrite Hf, Hl.
Qed.

Lemma load_slot (h : Native.heap) (p : Native.ptr)
      (slots : list (option Native.scalar)) (i : nat) (v : Native.scalar) :
  Native.record_at h p = Some slots -> slots !! i = Some (Some v) ->
  Native.load h p i = Some v.
Proof. intros Hr Hs. unfold Native.load. rewrite Hr. cbn. by rewrite Hs. Qed.

(** The branch, once the error code has been read. *)
Lemma branch_after_code (s : state) (r : positive)
      (slots : list (option Native.scalar)) (z : Z) :
  globals s !! "result" = Some (VPointer VexyResult (Npos r)) ->
  Native.record_at (heap s) (Npos r) = Some slots ->
  slots !! Native.F_error_code = Some (Some (Native.I32 z)) ->
  line23 s
  = if (wrap32 z =? 0)%Z
    then bind (getfield VexyResult "data" (Npos r))
              (fun d => bind (decode d) print) s
    else bind (getfield VexyResult "error_message" (Npos r))
              (fun m => bind (decode m)
                          (fun t => print (str_of_string "Error: " ++ t))) s.
Proof.
  intros Hres Hrec Hec.
  pose proof (load_slot _ _ _ _ _ Hrec Hec) as L0.
  unfold line23.
  rewrite bind_read_only by apply read_only_result_contents.
  rewrite (result_contents_spec "error_code" _ _ s Hres).
  rewrite (getfield_c_int VexyResult "error_code" 0 _ z s eq_refl L0).
  cbn [fst equals_zero].
  destruct (wrap32 z =? 0)%Z; unfold bind;
    by rewrite (result_contents_spec _ _ _ s Hres).
Qed.

Lemma wrap32_small (z : Z) :
  (- 2 ^ 31 <= z < 2 ^ 31)%Z -> wrap32 z = z.
Proof.
  intros Hz. unfold wrap32. rewrite Z.mod_small; lia.
Qed.

(** A payload that decodes but that an ASCII [sys.stdout] cannot take:
    [print] raises and nothing is written. *)
Example branch_cannot_encode :
  utf8_decode [xe2; x82; xac] = Some [8364]
  /\ (line23 (Sample.before_branch euro_on_ascii)).1 = Raise UnicodeEncodeError
  /\ stdout (line23 (Sample.before_branch euro_on_ascii)).2 = [].
Proof. vm_compute. done. Qed.

(** X3. Lines 23-26 change nothing but the output, and change it by a single
    [print]: the namespace, the function objects, the native heap and the
    list of native calls are as before; when the branch returns, the output
    has grown by one text and a newline, the text being the decoded bytes of
    [data] for a zero [error_code] and [Error: ] followed by the decoded
    bytes of [error_message] otherwise (the text may itself hold newlines);
    when the branch raises, nothing has been written. *)
Theorem branch_only_prints (s : state) :
  globals (line23 s).2 = globals s
  /\ lib_attrs (line23 s).2 = lib_attrs s
  /\ heap (line23 s).2 = heap s
  /\ ffi_calls (line23 s).2 = ffi_calls s
  /\ match (line23 s).1 with
     | Ok _ =>
       exists ec v t,
         (result_contents "error_code" s).1 = Ok ec
         /\ (result_contents
               (if equals_zero ec then "data" else "error_message") s).1
            = Ok v
         /\ (decode v s).1 = Ok t
         /\ stdout (line23 s).2
            = stdout s
              ++ (if equals_zero ec then t else str_of_string "Error: " ++ t)
              ++ [10]
     | Raise _ => stdout (line23 s).2 = stdout s
     end.
Proof.
  pose proof (branch_effect s) as H.
  assert (Hframe : globals (line23 s).2 = globals s
                   /\ lib_attrs (line23 s).2 = lib_attrs s
                   /\ heap (line23 s).2 = heap s
                   /\ ffi_calls (line23 s).2 = ffi_calls s).
  { destruct (line23 s) as [[[]|e] s']; cbn [snd].
    - by destruct H as [t ->].
    - by subst s'. }
  destruct Hframe as (Hg & Hl & Hh & Hf). repeat (split; [done|]).
  clear H Hg Hl Hh Hf. unfold line23.
  rewrite bind_read_only by apply read_only_result_contents.
  destruct (result_contents "error_code" s).1 as [ec|e] eqn:E0; [|done].
  destruct (equals_zero ec) eqn:Ez.
  - rewrite bind_read_only by apply read_only_result_contents.
    destruct (result_contents "data" s).1 as [d|e] eqn:E1; [|done].
    rewrite bind_read_only by apply read_only_decode.
    destruct (decode d s).1 as [t|e] eqn:E2; [|done].
    unfold print. destruct (forallb (encodable s) t); [|done].
    cbn [fst snd]. exists ec, d, t. by rewrite Ez.
  - rewrite bind_read_only by apply read_only_result_contents.
    destruct (result_contents "error_message" s).1 as [m|e] eqn:E1; [|done].
    rewrite bind_read_only by apply read_only_decode.
    destruct (decode m s).1 as [t|e] eqn:E2; [|done].
    unfold print. destruct (forallb _ _); [|done].
    cbn [fst snd]. exists ec, m, t. by rewrite Ez.
Qed.

(** X1. On the failure branch (a nonzero 32-bit [error_code]) the script
    prints [Error: ] followed by the text found at [error_message] up to its
    first NUL, and does not look at [data]; if those bytes are not UTF-8 it
    raises [UnicodeDecodeError], if the encoding of [sys.stdout] cannot
    represent the text it raises [UnicodeEncodeError], and in both cases it
    prints nothing. *)
Theorem branch_prints_error_message (s : state) (r m : positive)
        (slots : list (option Native.scalar)) (z : Z) (pre rest : list byte) :
  globals s !! "result" = Some (VPointer VexyResult (Npos r)) ->
  Native.record_at (heap s) (Npos r) = Some slots ->
  slots !! Native.F_error_code = Some (Some (Native.I32 z)) ->
  (- 2 ^ 31 <= z < 2 ^ 31)%Z -> z <> 0%Z ->
  slots !! Native.F_error_message = Some (Some (Native.Ptr (Npos m))) ->
  Native.buffer_at (heap s) (Npos m) = Some (pre ++ NUL :: rest) ->
  has_nul pre = false ->
  line23 s
  = match utf8_decode pre with
    | Some t =>
      if forallb (encodable s) t
      then (Ok tt,
            with_stdout
              (fun out => out ++ (str_of_string "Error: " ++ t) ++ [10]) s)
      else (Raise UnicodeEncodeError, s)
    | None => (Raise UnicodeDecodeError, s)
    end.
Proof.
  intros Hres Hrec Hec Hz Hnz Hmsg Hbuf Hnul.
  rewrite (branch_after_code s r slots z Hres Hrec Hec).
  rewrite (wrap32_small z Hz).
  destruct (z =? 0)%Z eqn:E; [apply Z.eqb_eq in E; done|].
  pose proof (load_slot _ _ _ _ _ Hrec Hmsg) as L5.
  unfold bind.
  rewrite (getfield_c_char_p VexyResult "error_message" 5 _ m _ s eq_refl L5 Hbuf).
  rewrite (c_string_at_terminated pre rest Hnul).
  unfold decode. by destruct (utf8_decode pre).
Qed.

Lemma branch_prints_error_message_witness :
  line23 (Sample.before_branch reject_world)
  = (Ok tt,
     with_stdout
       (fun out => out ++ str_of_string "Error: malformed input document"
                   ++ [10])
       (Sample.before_branch reject_world)).
Proof.
  apply (branch_prints_error_message (Sample.before_branch reject_world) 1 2
           [ Some (Native.I32 1); Some (Native.Ptr 0); Some (Native.Size 0);
             Some (Native.Size 50); Some (Native.Size 0);
             Some (Native.Ptr 2) ]
           1 (Native.describe Native.InvalidInput) []);
    try reflexivity; lia.
Defined.




(** X5. The branch trusts the record: when the pointer it is about to decode
    ([data] for a zero [error_code], [error_message] otherwise) is null, the
    field reads as [None] and [.decode()] raises [AttributeError]; nothing
    is printed. *)
Theorem null_gated_field_raises (s : state) (r : positive)
        (slots : list (option Native.scalar)) (z : Z) :
  globals s !! "result" = Some (VPointer VexyResult (Npos r)) ->
  Native.record_at (heap s) (Npos r) = Some slots ->
  slots !! Native.F_error_code = Some (Some (Native.I32 z)) ->
  slots !! gated_field z = Some (Some (Native.Ptr Native.NULL)) ->
  line23 s = (Raise (AttributeError "decode"), s).
Proof.
  intros Hres Hrec Hec Hnull.
  rewrite (branch_after_code s r slots z Hres Hrec Hec).
  pose proof (load_slot _ _ _ _ _ Hrec Hnull) as L.
  unfold gated_field in L. unfold bind.
  destruct (wrap32 z =? 0)%Z.
  - by rewrite (getfield_null_char_p VexyResult "data" 1 _ s eq_refl L).
  - by rewrite (getfield_null_char_p VexyResult "error_message" 5 _ s eq_refl L).
Qed.

Lemma null_gated_field_raises_witness :
  line23 null_data = (Raise (AttributeError "decode"), null_data).
Proof.
  apply (null_gated_field_raises null_data 1
           [ Some (Native.I32 0); Some (Native.Ptr 0); Some (Native.Size 0);
             Some (Native.Size 0); Some (Native.Size 0); Some (Native.Ptr 0) ]
           0);
    reflexivity.
Defined.

Lemma result_contents_null (name : string) (c : Structure_class) (s : state) :
  globals s !! "result" = Some (VPointer c Native.NULL) ->
  result_contents name s = (Raise ValueError, s).
Proof.
  intros H. unfold result_contents, bind, lookup_name. by rewrite H.
Qed.

Lemma getfield_not_ValueError (c : Structure_class) (name : string)
      (p : Native.ptr) :
  never_raises ValueError (getfield c name p).
Proof.
  intros s. unfold getfield, bind, gets, ret, raise.
  repeat case_match; cbn; discriminate.
Qed.

Lemma decode_not_ValueError (v : value) : never_raises ValueError (decode v).
Proof.
  intros s. unfold decode, ret, raise. repeat case_match; cbn; discriminate.
Qed.

(** X4. The script does not test the pointer it got: lines 23-28 stop with
    [ValueError] at line 23 exactly when [result] is a null pointer, and
    then nothing is printed and [free_result] is not called. *)
Theorem ValueError_iff_null_result (w : world) (s : state)
        (c : Structure_class) (p : Native.ptr) :
  globals s !! "result" = Some (VPointer c p) ->
  (aborted_at (run [(23, line23); (28, line28 w)]%nat s) = Some (23%nat, ValueError)
   <-> p = Native.NULL)
  /\ (p = Native.NULL ->
      run [(23, line23); (28, line28 w)]%nat s = Aborted 23 ValueError s).
Proof.
  intros Hres.
  assert (Hnull : p = Native.NULL ->
                  line23 s = (Raise ValueError, s)).
  { intros ->. unfold line23.
    rewrite bind_read_only by apply read_only_result_contents.
    by rewrite (result_contents_null "error_code" c s Hres). }
  split; [|intros Hp; by rewrite (run_step_raise _ _ _ _ _ _ (Hnull Hp))].
  split; [|intros Hp; by rewrite (run_step_raise _ _ _ _ _ _ (Hnull Hp))].
  destruct p as [|r]; [done|]. intros Hab. exfalso.
    cbn [run] in Hab.
  destruct (line23 s) as [[[]|e] s1] eqn:E23.
  - (* line 23 returned: an abort, if any, is at line 28 *)
    destruct (line28 w s1) as [[[]|e] s2]; cbn in Hab; congruence.
  - cbn in Hab. injection Hab as ->.
    revert E23. unfold line23.
    rewrite bind_read_only by apply read_only_result_contents.
    rewrite (result_contents_spec "error_code" _ _ s Hres).
    pose proof (getfield_not_ValueError c "error_code" (Npos r) s) as N0.
    destruct (getfield c "error_code" (N.pos r) s).1 as [ec|e]; [|congruence].
    destruct (equals_zero ec).
    + rewrite bind_read_only by apply read_only_result_contents.
      rewrite (result_contents_spec "data" _ _ s Hres).
      pose proof (getfield_not_ValueError c "data" (Npos r) s) as N1.
      destruct (getfield c "data" (N.pos r) s).1 as [d|e]; [|congruence].
      rewrite bind_read_only by apply read_only_decode.
      pose proof (decode_not_ValueError d s) as N2.
      destruct (decode d s).1 as [t|e]; [|congruence].
      unfold print. destruct (forallb _ _); discriminate.
    + rewrite bind_read_only by apply read_only_result_contents.
      rewrite (result_contents_spec "error_message" _ _ s Hres).
      pose proof (getfield_not_ValueError c "error_message" (Npos r) s) as N1.
      destruct (getfield c "error_message" (N.pos r) s).1 as [d|e]; [|congruence].
      rewrite bind_read_only by apply read_only_decode.
      pose proof (decode_not_ValueError d s) as N2.
      destruct (decode d s).1 as [t|e]; [|congruence].
      unfold print. destruct (forallb _ _); discriminate.
Qed.
Lemma ValueError_iff_null_result_witness :
  (aborted_at
     (run [(23, line23); (28, line28 Sample.sample_world)]%nat null_result)
   = Some (23%nat, ValueError)
   <-> Native.NULL = Native.NULL)
  /\ (Native.NULL = Native.NULL ->
      run [(23, line23); (28, line28 Sample.sample_world)]%nat null_result
      = Aborted 23 ValueError null_result).
Proof.
  apply (ValueError_iff_null_result Sample.sample_world null_result
           VexyResult Native.NULL).
  reflexivity.
Defined.

End BranchFacts.

(* ===================================================================== *)
(** ** The two native calls *)
(* ===================================================================== *)

Section CallFacts.
Import Bytes Ctypes Script Edge.

Lemma fields_eqb_refl (fs : list (string * simple_ctype)) :
  fields_eqb fs fs = true.
Proof.
  induction fs as [|[n t] fs IH]; [done|].
  cbn. rewrite String.eqb_refl, IH. by destruct t.
Qed.

Lemma class_eqb_refl (c : Structure_class) : class_eqb c c = true.
Proof. unfold class_eqb. by rewrite String.eqb_refl, fields_eqb_refl. Qed.

(** Line 21 with both declarations of lines 7-8 in force. *)
Lemma line21_declared (w : world) (s : state) (f : FuncPtr)
      (c : Structure_class) (b : list byte) :
  globals s !! "lib" = Some VLib ->
  lib_attrs s !! optimize_sym = Some f ->
  argtypes f = Some [Simple c_char_p] ->
  restype f = Some (POINTER c) ->
  globals s !! "svg" = Some (VBytes b) ->
  line21 w s
  = (Ok tt,
     with_globals <["result" := VPointer c (native_call w b (heap s)).1]>
       (with_native optimize_sym (ArgBytes (b ++ [NUL]))
          (native_call w b (heap s)).2 s)).
Proof.
  intros Hlib Hf Ha Hr Hsvg. unfold line21, bind.
  rewrite (lib_getattr_cached w _ f s Hlib Hf).
  unfold lookup_name. rewrite Hsvg.
  unfold call_optimize, bind, as_char_p. rewrite Ha. cbn [ret].
  unfold Native.optimize_default, native_call. rewrite c_str_terminator.
  destruct (Native.optimize _ _ _ _) as [p h]. cbn [fst snd].
  unfold as_result. rewrite Hr. done.
Qed.

Lemma line28_declared (w : world) (s : state) (g : FuncPtr)
      (c : Structure_class) (p : Native.ptr) :
  globals s !! "lib" = Some VLib ->
  lib_attrs s !! free_sym = Some g ->
  argtypes g = Some [POINTER c] ->
  globals s !! "result" = Some (VPointer c p) ->
  line28 w s
  = (Ok tt, with_native free_sym (ArgPtr p) (Native.release p (heap s)) s).
Proof.
  intros Hlib Hg Ha Hres. unfold line28, bind.
  rewrite (lib_getattr_cached w _ g s Hlib Hg).
  unfold lookup_name. rewrite Hres.
  unfold call_free, bind, as_pointer. rewrite Ha, class_eqb_refl. done.
Qed.

(** X6. Line 21 hands the engine a C string: with the declarations of lines
    7-8 in force the call returns, is logged with the buffer of [svg] and
    its terminator, and binds [result] to what [optimize] returns for the
    bytes of [svg] before their first NUL; bytes after an embedded NUL never
    reach the engine. *)
Theorem call_passes_c_string (w : world) (s : state) (f : FuncPtr)
      (c : Structure_class) (b : list byte) :
  globals s !! "lib" = Some VLib ->
  lib_attrs s !! optimize_sym = Some f ->
  argtypes f = Some [Simple c_char_p] ->
  restype f = Some (POINTER c) ->
  globals s !! "svg" = Some (VBytes b) ->
  exists s',
    line21 w s = (Ok tt, s')
    /\ ffi_calls s' = ffi_calls s ++ [(optimize_sym, ArgBytes (b ++ [NUL]))]
    /\ (globals s' !! "result", heap s')
       = (Some (VPointer c
                  (Native.optimize (engine w) (c_str b)
                     (Native.default_configuration (engine w)) (heap s)).1),
          (Native.optimize (engine w) (c_str b)
             (Native.default_configuration (engine w)) (heap s)).2)
    /\ c_str b `prefix_of` b
    /\ has_nul (c_str b) = false.
Proof.
  intros Hlib Hf Ha Hr Hsvg. eexists. split.
  { apply (line21_declared w s f c b Hlib Hf Ha Hr Hsvg). }
  cbn. rewrite lookup_insert_eq. repeat split.
  - clear. induction b as [|x b IH]; [done|].
    cbn. destruct (is_nul x); [apply prefix_nil | by apply prefix_cons].
  - clear. induction b as [|x b IH]; [done|].
    cbn. destruct (is_nul x) eqn:E; [done|]. cbn. by rewrite E.
Qed.
Lemma call_passes_c_string_witness :
  exists s',
    line21 Sample.sample_world (before_call Sample.sample_world) = (Ok tt, s')
    /\ ffi_calls s'
       = ffi_calls (before_call Sample.sample_world)
         ++ [(optimize_sym, ArgBytes (svg ++ [NUL]))]
    /\ (globals s' !! "result", heap s')
       = (Some (VPointer VexyResult
                  (Native.optimize (engine Sample.sample_world) (c_str svg)
                     (Native.default_configuration (engine Sample.sample_world))
                     (heap (before_call Sample.sample_world))).1),
          (Native.optimize (engine Sample.sample_world) (c_str svg)
             (Native.default_configuration (engine Sample.sample_world))
             (heap (before_call Sample.sample_world))).2)
    /\ c_str svg `prefix_of` svg
    /\ has_nul (c_str svg) = false.
Proof.
  apply (call_passes_c_string Sample.sample_world
           (before_call Sample.sample_world)
           {| argtypes := Some [Simple c_char_p];
              restype := Some (POINTER VexyResult) |}
           VexyResult svg);
    reflexivity.
Defined.

Lemma keeps_read_only {A X} (f : state -> X) (c : M A) :
  read_only c -> keeps f c.
Proof. intros H s. by rewrite H. Qed.

Lemma keeps_bind {A B X} (f : state -> X) (m : M A) (k : A -> M B) :
  keeps f m -> (forall a, keeps f (k a)) -> keeps f (bind m k).
Proof.
  intros Hm Hk s. unfold bind. specialize (Hm s).
  destruct (m s) as [[a|e] s']; cbn in *; [|done].
  by rewrite (Hk a s').
Qed.

Lemma keeps_ret {A X} (f : state -> X) (a : A) : keeps f (ret a).
Proof. done. Qed.

Lemma keeps_raise {A X} (f : state -> X) (e : exn) : keeps f (@raise A e).
Proof. done. Qed.

Lemma keeps_lookup_name {X} (f : state -> X) (x : string) :
  keeps f (lookup_name x).
Proof. intros s. unfold lookup_name. by destruct (globals s !! x). Qed.

Lemma keeps_ctypes_module {X} (f : state -> X) : keeps f ctypes_module.
Proof.
  apply keeps_bind; [apply keeps_lookup_name|].
  intros v. destruct v; first [apply keeps_ret | apply keeps_raise].
Qed.

Lemma keeps_the_class {X} (f : state -> X) (x : string) :
  keeps f (the_class x).
Proof.
  apply keeps_bind; [apply keeps_lookup_name|].
  intros v. destruct v; first [apply keeps_ret | apply keeps_raise].
Qed.

Lemma keeps_modify {X} (f : state -> X) (g : state -> state) :
  (forall s, f (g s) = f s) -> keeps f (modify g).
Proof. intros H s. apply H. Qed.

Lemma keeps_lib_getattr {X} (f : state -> X) (w : world) (sym : string) :
  (forall h s, f (with_lib_attrs h s) = f s) -> keeps f (lib_getattr w sym).
Proof.
  intros H. apply keeps_bind; [apply keeps_lookup_name|].
  intros v. destruct v; try apply keeps_raise.
  intros s. destruct (lib_attrs s !! sym); [done|].
  case_bool_decide; [apply H | done].
Qed.

Lemma read_only_as_char_p (f : FuncPtr) (a : value) : read_only (as_char_p f a).
Proof. unfold as_char_p. by repeat case_match. Qed.

Lemma read_only_as_pointer (f : FuncPtr) (a : value) :
  read_only (as_pointer f a).
Proof. unfold as_pointer. by repeat case_match. Qed.

Lemma read_only_as_result (f : FuncPtr) (p : Native.ptr) :
  read_only (as_result f p).
Proof. unfold as_result. by repeat case_match. Qed.

Lemma keeps_stdout_call_optimize (w : world) (f : FuncPtr) (a : value) :
  keeps stdout (call_optimize w f a).
Proof.
  unfold call_optimize.
  apply keeps_bind; [apply keeps_read_only, read_only_as_char_p|]. intros mem.
  apply keeps_bind; [|intros p; apply keeps_read_only, read_only_as_result].
  intros s. by destruct (Native.optimize_default _ _ _).
Qed.

Lemma keeps_stdout_call_free (w : world) (f : FuncPtr) (a : value) :
  keeps stdout (call_free w f a).
Proof.
  unfold call_free.
  apply keeps_bind; [apply keeps_read_only, read_only_as_pointer|]. intros p.
  by apply keeps_modify.
Qed.

Ltac frame :=
  repeat first
    [ apply keeps_ctypes_module
    | apply keeps_the_class
    | apply keeps_lookup_name
    | apply keeps_stdout_call_optimize
    | apply keeps_stdout_call_free
    | apply keeps_lib_getattr; done
    | apply keeps_modify; done
    | apply keeps_ret
    | apply keeps_raise
    | apply keeps_bind; [|intros ?]
    | match goal with
      | |- keeps _ (if ?b then _ else _) => destruct b
      end ].

(** X8. Only the calls of lines 21 and 28 touch the native heap or enter the
    library, and only the branch of lines 23-26 writes to the output: every
    other statement leaves them as they were, whether it returns or
    raises. *)
Theorem only_calls_touch_native (w : world) :
  Forall (fun c : M unit => keeps heap c /\ keeps ffi_calls c)
         [ line1; line4 w; line7 w; line8 w; line9 w; line11; line19; line23 ]
  /\ Forall (fun c : M unit => keeps stdout c)
            [ line1; line4 w; line7 w; line8 w; line9 w; line11; line19;
              line21 w; line28 w ].
Proof.
  assert (H23 : forall X (f : state -> X),
             (forall g s, f (with_stdout g s) = f s) -> keeps f line23).
  { intros X f Hf s. pose proof (branch_effect s) as H.
    destruct (line23 s) as [[[]|e] s']; cbn; [|by subst].
    destruct H as [t ->]. apply Hf. }
  split.
  - repeat (apply Forall_cons; split); try (by apply Forall_nil);
      try split; try (by apply H23);
      unfold line1, line4, line7, line8, line9, line11, line19,
        bind_name, set_argtypes, set_restype; frame.
  - repeat (apply Forall_cons; split); try (by apply Forall_nil);
      unfold line1, line4, line7, line8, line9, line11, line19, line21, line28,
        bind_name, set_argtypes, set_restype; frame.
Qed.

(** X7. Lines 21-28 free what they obtained, unless the branch raises: the run
    can only stop at line 23; when it does not, [free_result] is called
    once, after [optimize_default], on the very pointer that call returned;
    when it does, [free_result] is not called and the record stays
    allocated. *)
Theorem free_follows_branch (w : world) (s : state) (f g : FuncPtr)
        (c : Structure_class) (b : list byte) :
  globals s !! "lib" = Some VLib ->
  globals s !! "svg" = Some (VBytes b) ->
  lib_attrs s !! optimize_sym = Some f ->
  argtypes f = Some [Simple c_char_p] ->
  restype f = Some (POINTER c) ->
  lib_attrs s !! free_sym = Some g ->
  argtypes g = Some [POINTER c] ->
  (aborted_at (run [(21, line21 w); (23, line23); (28, line28 w)]%nat s) = None
   \/ exists e,
        aborted_at (run [(21, line21 w); (23, line23); (28, line28 w)]%nat s)
        = Some (23%nat, e))
  /\ ffi_calls
       (final_state (run [(21, line21 w); (23, line23); (28, line28 w)]%nat s))
     = ffi_calls s
       ++ (optimize_sym, ArgBytes (b ++ [NUL]))
       :: match aborted_at
                  (run [(21, line21 w); (23, line23); (28, line28 w)]%nat s)
          with
          | None => [(free_sym, ArgPtr (native_call w b (heap s)).1)]
          | Some _ => []
          end
  /\ heap
       (final_state (run [(21, line21 w); (23, line23); (28, line28 w)]%nat s))
     = match aborted_at
               (run [(21, line21 w); (23, line23); (28, line28 w)]%nat s)
       with
       | None => Native.release (native_call w b (heap s)).1
                   (native_call w b (heap s)).2
       | Some _ => (native_call w b (heap s)).2
       end.
Proof.
  intros Hlib Hsvg Hf Hfa Hfr Hg Hga.
  rewrite (run_step_ok _ _ _ _ _ (line21_declared w s f c b Hlib Hf Hfa Hfr Hsvg)).
  fold (native_call w b (heap s)).
  set (s1 := with_globals _ _).
  pose proof (branch_effect s1) as H23. cbn [run].
  destruct (line23 s1) as [[[]|e] s2].
  2:{ subst s2. cbn -[native_call]. split; [right; eauto | done]. }
  destruct H23 as [t ->].
  assert (H28 := line28_declared w (with_stdout (fun out => out ++ t ++ [10]) s1)
                   g c (native_call w b (heap s)).1).
  rewrite H28.
  - cbn -[native_call]. rewrite <- !app_assoc. split; [by left | done].
  - subst s1. cbn. by rewrite lookup_insert_ne.
  - exact Hg.
  - exact Hga.
  - subst s1. cbn. by rewrite lookup_insert_eq.
Qed.
Lemma free_follows_branch_witness :
  (aborted_at
     (run [(21, line21 latin1_world); (23, line23); (28, line28 latin1_world)]%nat
        (before_call latin1_world)) = None
   \/ exists e,
        aborted_at
          (run [(21, line21 latin1_world); (23, line23);
                (28, line28 latin1_world)]%nat (before_call latin1_world))
        = Some (23%nat, e))
  /\ ffi_calls
       (final_state
          (run [(21, line21 latin1_world); (23, line23);
                (28, line28 latin1_world)]%nat (before_call latin1_world)))
     = ffi_calls (before_call latin1_world)
       ++ (optimize_sym, ArgBytes (svg ++ [NUL]))
       :: match aborted_at
                  (run [(21, line21 latin1_world); (23, line23);
                        (28, line28 latin1_world)]%nat
                     (before_call latin1_world))
          with
          | None =>
            [(free_sym,
              ArgPtr (native_call latin1_world svg
                        (heap (before_call latin1_world))).1)]
          | Some _ => []
          end
  /\ heap
       (final_state
          (run [(21, line21 latin1_world); (23, line23);
                (28, line28 latin1_world)]%nat (before_call latin1_world)))
     = match aborted_at
               (run [(21, line21 latin1_world); (23, line23);
                     (28, line28 latin1_world)]%nat
                  (before_call latin1_world))
       with
       | None =>
         Native.release
           (native_call latin1_world svg (heap (before_call latin1_world))).1
           (native_call latin1_world svg (heap (before_call latin1_world))).2
       | Some _ =>
         (native_call latin1_world svg (heap (before_call latin1_world))).2
       end.
Proof.
  apply (free_follows_branch latin1_world (before_call latin1_world)
           {| argtypes := Some [Simple c_char_p];
              restype := Some (POINTER VexyResult) |}
           {| argtypes := Some [POINTER VexyResult];
              restype := Some (Simple c_int) |}
           VexyResult svg);
    reflexivity.
Defined.










End CallFacts.
